(** * The admin "create trip" page: form state, validation, submission, filtering

    A shallow embedding of [app/routes/admin/create-trip.tsx].

    The page keeps three pieces of React state ([formData], [loading],
    [error]) and has three handlers worth verifying:

    - [handleChange], the field setter behind every control;
    - [handleSubmit], the asynchronous submit handler (validation, the
      auth lookup [account.get()], the [fetch] of [/api/create-trip],
      navigation);
    - [filtering], the combo-box callback that narrows the country list.

    JavaScript data is modelled as the run time has it: strings are
    sequences of UTF-16 code units, numbers are IEEE 754 binary64 values
    (with NaN, the infinities and signed zeros), and a form field holds
    whatever [handleChange] was given, a string or a number.  The outside
    world (auth service, HTTP endpoint) is a record of the answers it gives;
    the handler is a function from such a world and a component state to a
    completion, a new state and the ordered log of its effects. *)

From Stdlib Require Import ZArith QArith List String Ascii Bool Lia.
From Stdlib Require Import Floats.SpecFloat.
Import ListNotations.

Set Implicit Arguments.
Local Open Scope Z_scope.

(* ================================================================== *)
(** * JavaScript values *)
(* ================================================================== *)

(** ** Strings: sequences of UTF-16 code units *)

Definition code_unit := N.
Definition js_string := list code_unit.

(** A string literal of the source (all of them are ASCII). *)
Definition lit (s : string) : js_string :=
  map N_of_ascii (list_ascii_of_string s).

Definition code_unit_eqb : code_unit -> code_unit -> bool := N.eqb.

(** [s.startsWith(q)] *)
Fixpoint startsWith (s q : js_string) : bool :=
  match q, s with
  | [], _ => true
  | _ :: _, [] => false
  | b :: q', a :: s' => code_unit_eqb a b && startsWith s' q'
  end.

(** [s.includes(q)]: [q] occurs in [s] at some position. *)
Fixpoint includes (s q : js_string) : bool :=
  startsWith s q ||
  match s with
  | [] => false
  | _ :: s' => includes s' q
  end.

(** What "contains [q] as a substring" means. *)
Definition substring_of (q s : js_string) : Prop :=
  exists pre post, s = pre ++ q ++ post.

(** ** Numbers: IEEE 754 binary64 *)

Definition number := spec_float.

Definition prec : Z := 53.
Definition emax : Z := 1024.

(** Every JavaScript number is a well-formed binary64 datum. *)
Definition is_double (n : number) : Prop := valid_binary prec emax n = true.

Definition js_NaN : number := S754_nan.
Definition js_Infinity : number := S754_infinity false.

(** The double nearest to an integer literal. *)
Definition number_of_Z (z : Z) : number := binary_normalize prec emax z 0 false.

Definition num_0 : number := Eval cbv in number_of_Z 0.
Definition num_1 : number := Eval cbv in number_of_Z 1.
Definition num_10 : number := Eval cbv in number_of_Z 10.

(** [a < b] and [a > b] on numbers; both are false when either is NaN. *)
Definition num_lt (a b : number) : bool := SFltb a b.
Definition num_gt (a b : number) : bool := SFltb b a.

Definition isFinite (n : number) : bool :=
  match n with
  | S754_zero _ | S754_finite _ _ _ => true
  | S754_infinity _ | S754_nan => false
  end.

(** The rational a finite non-zero double stands for:
    [(-1)^s * m * 2^e]. *)
Definition Q_of_finite (s : bool) (m : positive) (e : Z) : Q :=
  let magnitude :=
    match e with
    | Z0 => Zpos m # 1
    | Zpos p => Zpos (m * 2 ^ p) # 1
    | Zneg p => Zpos m # (2 ^ p)
    end in
  if s then Qopp magnitude else magnitude.

(** The mathematical value of a number, when it has one. *)
Definition real_value (n : number) : option Q :=
  match n with
  | S754_zero _ => Some 0%Q
  | S754_finite s m e => Some (Q_of_finite s m e)
  | S754_infinity _ | S754_nan => None
  end.

(** "[n] lies in the closed interval [[lo, hi]]" as a statement about
    values; NaN and the infinities lie in no interval. *)
Definition in_interval (lo hi : Z) (n : number) : Prop :=
  match real_value n with
  | Some q => (inject_Z lo <= q)%Q /\ (q <= inject_Z hi)%Q
  | None => False
  end.

(** ** Dynamically typed values

    Only the shapes that reach this page: [undefined], strings and
    numbers. *)

Inductive value :=
| VUndefined
| VString (s : js_string)
| VNumber (n : number).

(** [ToBoolean]: [undefined], the empty string, [+0], [-0] and NaN are
    falsy. *)
Definition ToBoolean (v : value) : bool :=
  match v with
  | VUndefined => false
  | VString [] => false
  | VString (_ :: _) => true
  | VNumber (S754_zero _) => false
  | VNumber S754_nan => false
  | VNumber _ => true
  end.

(** [!v] *)
Definition falsy (v : value) : bool := negb (ToBoolean v).

(** ** JSON text, as its syntax tree *)

#[warnings="-register-all"]
Inductive json :=
| JNull
| JNum (n : number)
| JStr (s : js_string)
| JObj (members : list (js_string * json)).

(** How [JSON.stringify] writes one property value: [undefined] makes
    the property disappear, a number that is not finite is written
    [null], and [-0] is written [0]. *)
Definition json_of_value (v : value) : option json :=
  match v with
  | VUndefined => None
  | VString s => Some (JStr s)
  | VNumber (S754_zero _) => Some (JNum (S754_zero false))
  | VNumber n => Some (if isFinite n then JNum n else JNull)
  end.

(** [JSON.stringify] of an object literal, properties in source order. *)
Fixpoint stringify_members (props : list (js_string * value))
  : list (js_string * json) :=
  match props with
  | [] => []
  | (k, v) :: rest =>
      match json_of_value v with
      | Some j => (k, j) :: stringify_members rest
      | None => stringify_members rest
      end
  end.

Definition JSON_stringify (props : list (js_string * value)) : json :=
  JObj (stringify_members props).

(** ** Promises, as what they settle to *)

(** A thrown value or rejection reason. *)
Inductive thrown := Thrown (message : js_string).

Inductive settled (A : Type) :=
| Fulfilled (a : A)
| Rejected (reason : thrown).
Arguments Fulfilled {A} a.
Arguments Rejected {A} reason.


(* ================================================================== *)
(** * The page's data *)
(* ================================================================== *)

(** [type TripFormData].  The declared field types are [string] (five
    fields) and [number] ([duration]); at run time a field holds whatever
    [handleChange] stored, so each is a [value]. *)
Record TripFormData := {
  country : value;
  travelStyle : value;
  interest : value;
  budget : value;
  duration : value;
  groupType : value
}.

(** [keyof TripFormData] *)
Inductive keyof_TripFormData :=
| k_country | k_travelStyle | k_interest | k_budget | k_duration | k_groupType.

(** [s[key]] *)
Definition get (s : TripFormData) (key : keyof_TripFormData) : value :=
  match key with
  | k_country => country s
  | k_travelStyle => travelStyle s
  | k_interest => interest s
  | k_budget => budget s
  | k_duration => duration s
  | k_groupType => groupType s
  end.

(** [{ ...s, [key]: v }]: a fresh object with the properties of [s], the
    one named [key] overwritten. *)
Definition spread_with (s : TripFormData) (key : keyof_TripFormData) (v : value)
  : TripFormData :=
  match key with
  | k_country =>
      {| country := v; travelStyle := travelStyle s; interest := interest s;
         budget := budget s; duration := duration s; groupType := groupType s |}
  | k_travelStyle =>
      {| country := country s; travelStyle := v; interest := interest s;
         budget := budget s; duration := duration s; groupType := groupType s |}
  | k_interest =>
      {| country := country s; travelStyle := travelStyle s; interest := v;
         budget := budget s; duration := duration s; groupType := groupType s |}
  | k_budget =>
      {| country := country s; travelStyle := travelStyle s; interest := interest s;
         budget := v; duration := duration s; groupType := groupType s |}
  | k_duration =>
      {| country := country s; travelStyle := travelStyle s; interest := interest s;
         budget := budget s; duration := v; groupType := groupType s |}
  | k_groupType =>
      {| country := country s; travelStyle := travelStyle s; interest := interest s;
         budget := budget s; duration := duration s; groupType := v |}
  end.

(** [type CreateTripResponse = { id?: string }] *)
Record CreateTripResponse := { id : option js_string }.

(** The user object of the auth client; only [$id] is read. *)
Record User := { dollar_id : value }.

(** The second argument of [fetch]. *)
Record RequestInit := {
  method : js_string;
  headers : list (js_string * js_string);
  body : json
}.

(** A [Response]: its status flag, which the page never reads, and what
    [resp.json()] settles to ([None] is the JSON text [null]). *)
Record Response := {
  ok : bool;
  json_promise : settled (option CreateTripResponse)
}.

(** The three pieces of component state. *)
Record Component := {
  formData : TripFormData;
  loading : bool;
  error : option js_string
}.

(** [disabled={loading}] on the submit button. *)
Definition submit_disabled (c : Component) : bool := loading c.

(** The outside world, as the answers it gives. *)
Record World := {
  account_get : settled User;
  fetch : js_string -> RequestInit -> settled Response
}.

(* ================================================================== *)
(** * Effects *)
(* ================================================================== *)

(** An argument of [console.error]. *)
Inductive log_arg :=
| LStr (s : js_string)
| LErr (e : thrown).

(** What a handler does to the world, in order. *)
Inductive effect :=
| PreventDefault
| SetLoading (b : bool)
| SetError (msg : js_string)
| AccountGet
| Fetch (url : js_string) (init : RequestInit)
| ConsoleError (args : list log_arg)
| Navigate (path : js_string).

Record Machine := {
  component : Component;
  effects : list effect
}.

(** How a computation ends: normally, or by throwing (for an [async]
    function: its promise is fulfilled, or rejected). *)
Inductive completion (A : Type) :=
| Normal (a : A)
| Throw (e : thrown).
Arguments Normal {A} a.
Arguments Throw {A} e.

Definition M (A : Type) : Type := Machine -> completion A * Machine.

Definition ret {A} (a : A) : M A := fun m => (Normal a, m).

Definition bind {A B} (c : M A) (k : A -> M B) : M B :=
  fun m =>
    match c m with
    | (Normal a, m') => k a m'
    | (Throw e, m') => (Throw e, m')
    end.

Declare Scope js_scope.
Delimit Scope js_scope with js.
Notation "x <- c ;; k" := (bind c (fun x => k))
  (at level 61, c at next level, right associativity) : js_scope.
Notation "c ;; k" := (bind c (fun _ => k))
  (at level 61, right associativity) : js_scope.

Definition emit (e : effect) : M unit :=
  fun m => (Normal tt, {| component := component m; effects := effects m ++ [e] |}).

Definition update (f : Component -> Component) : M unit :=
  fun m => (Normal tt, {| component := f (component m); effects := effects m |}).

(** The state setters of [useState]. *)
Definition setLoading (b : bool) : M unit :=
  (emit (SetLoading b) ;;
   update (fun c => {| formData := formData c; loading := b; error := error c |}))%js.

Definition setError (msg : js_string) : M unit :=
  (emit (SetError msg) ;;
   update (fun c => {| formData := formData c; loading := loading c; error := Some msg |}))%js.

Definition setFormData (f : TripFormData -> TripFormData) : M unit :=
  update (fun c => {| formData := f (formData c); loading := loading c; error := error c |}).

(** The [formData] the handler closes over. *)
Definition useFormData : M TripFormData := fun m => (Normal (formData (component m)), m).

Definition preventDefault : M unit := emit PreventDefault.
Definition console_error (args : list log_arg) : M unit := emit (ConsoleError args).
Definition navigate (path : js_string) : M unit := emit (Navigate path).

(** [await p] *)
Definition await {A} (p : settled A) : M A :=
  fun m =>
    match p with
    | Fulfilled a => (Normal a, m)
    | Rejected e => (Throw e, m)
    end.

(** [try { body } catch (err) { handler(err) } finally { final }] *)
Definition try_catch_finally {A} (body : M A) (handler : thrown -> M A) (final : M unit)
  : M A :=
  fun m =>
    let (r1, m1) := body m in
    let (r2, m2) :=
      match r1 with
      | Normal a => (Normal a, m1)
      | Throw e => handler e m1
      end in
    match final m2 with
    | (Normal _, m3) => (r2, m3)
    | (Throw e, m3) => (Throw e, m3)
    end.

(* ================================================================== *)
(** * The handlers *)
(* ================================================================== *)

(** [type Country] *)
Module Country.
Record t := {
  name : js_string;
  coordinates : number * number;
  value : js_string;
  openStreetMap : option js_string
}.
End Country.

(** An entry of a combo-box data source: [{ text, value }]. *)
Module Item.
Record t := {
  text : js_string;
  value : js_string
}.
End Item.

Section Handlers.

(** Two built-ins of the language are taken as given: the Unicode-aware
    [String.prototype.toLowerCase] and the string-to-number conversion
    that [<] and [>] apply to a string operand. *)
Variable toLowerCase : js_string -> js_string.
Variable StringToNumber : js_string -> number.

(** [ToNumber] *)
Definition ToNumber (v : value) : number :=
  match v with
  | VUndefined => js_NaN
  | VString s => StringToNumber s
  | VNumber n => n
  end.

(** [v < n] and [v > n] with a number on the right. *)
Definition js_lt (v : value) (n : number) : bool := num_lt (ToNumber v) n.
Definition js_gt (v : value) (n : number) : bool := num_gt (ToNumber v) n.

(** ** [handleChange] *)

(** [setFormData((s) => ({ ...s, [key]: value }))] *)
Definition handleChange (key : keyof_TripFormData) (v : value) : M unit :=
  setFormData (fun s => spread_with s key v).

(** ** [handleSubmit] *)

(** The condition of the first [if]. *)
Definition missing_required_field (fd : TripFormData) : bool :=
  falsy (country fd) ||
  falsy (travelStyle fd) ||
  falsy (interest fd) ||
  falsy (budget fd) ||
  falsy (groupType fd).

(** The condition of the second [if]. *)
Definition duration_out_of_bounds (fd : TripFormData) : bool :=
  js_lt (duration fd) num_1 || js_gt (duration fd) num_10.

Definition msg_all_fields : js_string := lit "Please provide input for all fields".
Definition msg_duration : js_string := lit "Duration must be between 1 and 10 days".
Definition msg_not_authenticated : js_string := lit "User not authenticated".
Definition msg_failed : js_string := lit "Failed to generate itinerary".
Definition msg_error_generating : js_string := lit "Error generating itinerary:".

Definition create_trip_url : js_string := lit "/api/create-trip".

(** The request of the [fetch] call. *)
Definition create_trip_request (fd : TripFormData) (user : User) : RequestInit :=
  {| method := lit "POST";
     headers := [(lit "Content-Type", lit "application/json")];
     body := JSON_stringify
       [ (lit "country", country fd);
         (lit "numberOfDays", duration fd);
         (lit "travelStyle", travelStyle fd);
         (lit "interests", interest fd);
         (lit "budget", budget fd);
         (lit "groupType", groupType fd);
         (lit "userId", dollar_id user) ] |}.

(** [result?.id], as far as its truthiness goes: the id when it is a
    non-empty string. *)
Definition truthy_id (result : option CreateTripResponse) : option js_string :=
  match result with
  | Some {| id := Some (c :: i) |} => Some (c :: i)
  | _ => None
  end.

(** [`/admin/trip-detail/${id}`] *)
Definition trip_detail_path (i : js_string) : js_string :=
  lit "/admin/trip-detail/" ++ i.

(** The body of the [try] block. *)
Definition post_and_navigate (w : World) (fd : TripFormData) (user : User) : M unit :=
  (resp <- (emit (Fetch create_trip_url (create_trip_request fd user)) ;;
            await (fetch w create_trip_url (create_trip_request fd user))) ;;
   result <- await (json_promise resp) ;;
   match truthy_id result with
   | Some i => navigate (trip_detail_path i)
   | None => console_error [LStr msg_failed]
   end)%js.

(** The handler.  Each early [return] of the source is the end of a
    branch here. *)
Definition handleSubmit (w : World) : M unit :=
  (preventDefault ;;
   setLoading true ;;
   fd <- useFormData ;;
   if missing_required_field fd then
     (setError msg_all_fields ;;
      setLoading false)
   else if duration_out_of_bounds fd then
     (setError msg_duration ;;
      setLoading false)
   else
     (user <- (emit AccountGet ;; await (account_get w)) ;;
      if falsy (dollar_id user) then
        (console_error [LStr msg_not_authenticated] ;;
         setLoading false)
      else
        try_catch_finally
          (post_and_navigate w fd user)
          (fun err => console_error [LStr msg_error_generating; LErr err])
          (setLoading false)))%js.

(** ** The country combo-box's [filtering] *)

(** [String(e.text ?? "")], [e.text] being a string or absent. *)
Definition query_of (text : option js_string) : js_string :=
  match text with
  | Some s => s
  | None => lit ""
  end.

(** The argument the callback passes to [e.updateData]. *)
Definition filtering (countries : list Country.t) (text : option js_string)
  : list Item.t :=
  let query := toLowerCase (query_of text) in
  map (fun c => {| Item.text := Country.name c; Item.value := Country.value c |})
      (filter (fun c => includes (toLowerCase (Country.name c)) query) countries).

End Handlers.

(** ** Reading a run *)

(** A machine at the moment a handler is invoked: the component as it
    is, and nothing done yet. *)
Definition start (c : Component) : Machine := {| component := c; effects := [] |}.

Definition is_network_call (e : effect) : bool :=
  match e with
  | AccountGet | Fetch _ _ => true
  | _ => false
  end.

Definition network_calls (l : list effect) : list effect := filter is_network_call l.

Fixpoint fetches (l : list effect) : list (js_string * RequestInit) :=
  match l with
  | [] => []
  | Fetch url init :: l' => (url, init) :: fetches l'
  | _ :: l' => fetches l'
  end.

Fixpoint navigations (l : list effect) : list js_string :=
  match l with
  | [] => []
  | Navigate p :: l' => p :: navigations l'
  | _ :: l' => navigations l'
  end.

Fixpoint console_errors (l : list effect) : list (list log_arg) :=
  match l with
  | [] => []
  | ConsoleError args :: l' => args :: console_errors l'
  | _ :: l' => console_errors l'
  end.

Fixpoint error_messages (l : list effect) : list js_string :=
  match l with
  | [] => []
  | SetError msg :: l' => msg :: error_messages l'
  | _ :: l' => error_messages l'
  end.

Fixpoint loading_writes (l : list effect) : list bool :=
  match l with
  | [] => []
  | SetLoading b :: l' => b :: loading_writes l'
  | _ :: l' => loading_writes l'
  end.

(** [{ text: c.name, value: c.value }] *)
Definition item_of (c : Country.t) : Item.t :=
  {| Item.text := Country.name c; Item.value := Country.value c |}.

(** [kept] is what remains of [l] when exactly the elements satisfying
    [P] are kept, each where it stood. *)
Inductive selects {A : Type} (P : A -> Prop) : list A -> list A -> Prop :=
| selects_nil : selects P [] []
| selects_keep x l kept : P x -> selects P l kept -> selects P (x :: l) (x :: kept)
| selects_drop x l kept : ~ P x -> selects P l kept -> selects P (x :: l) kept.

Definition key_eqb (a b : keyof_TripFormData) : bool :=
  match a, b with
  | k_country, k_country
  | k_travelStyle, k_travelStyle
  | k_interest, k_interest
  | k_budget, k_budget
  | k_duration, k_duration
  | k_groupType, k_groupType => true
  | _, _ => false
  end.

(** ** The ways a submission can go *)

(** The handler run on a component as it stands. *)
Definition submit (StringToNumber : js_string -> number) (w : World) (c : Component)
  : completion unit * Machine :=
  handleSubmit StringToNumber w (start c).

(** Neither [if] of the validation fires. *)
Definition passes_validation (StringToNumber : js_string -> number) (fd : TripFormData)
  : bool :=
  negb (missing_required_field fd) && negb (duration_out_of_bounds StringToNumber fd).

(** The component [c] with its [loading] and [error] replaced, and the
    effects that led there. *)
Definition outcome (c : Component) (ld : bool) (err : option js_string)
  (l : list effect) : Machine :=
  {| component := {| formData := formData c; loading := ld; error := err |};
     effects := l |}.

(** Every run of the handler follows one of eight paths, told apart by
    the form and by what the world answers. *)
Inductive submit_path (StringToNumber : js_string -> number) (w : World) (c : Component)
  : completion unit * Machine -> Prop :=
| path_missing_field :
    missing_required_field (formData c) = true ->
    submit_path StringToNumber w c
      (Normal tt,
       outcome c false (Some msg_all_fields)
         [PreventDefault; SetLoading true; SetError msg_all_fields; SetLoading false])
| path_bad_duration :
    missing_required_field (formData c) = false ->
    duration_out_of_bounds StringToNumber (formData c) = true ->
    submit_path StringToNumber w c
      (Normal tt,
       outcome c false (Some msg_duration)
         [PreventDefault; SetLoading true; SetError msg_duration; SetLoading false])
| path_auth_rejected e :
    passes_validation StringToNumber (formData c) = true ->
    account_get w = Rejected e ->
    submit_path StringToNumber w c
      (Throw e,
       outcome c true (error c) [PreventDefault; SetLoading true; AccountGet])
| path_no_user_id user :
    passes_validation StringToNumber (formData c) = true ->
    account_get w = Fulfilled user ->
    falsy (dollar_id user) = true ->
    submit_path StringToNumber w c
      (Normal tt,
       outcome c false (error c)
         [PreventDefault; SetLoading true; AccountGet;
          ConsoleError [LStr msg_not_authenticated]; SetLoading false])
| path_fetch_rejected user e :
    passes_validation StringToNumber (formData c) = true ->
    account_get w = Fulfilled user ->
    falsy (dollar_id user) = false ->
    fetch w create_trip_url (create_trip_request (formData c) user) = Rejected e ->
    submit_path StringToNumber w c
      (Normal tt,
       outcome c false (error c)
         [PreventDefault; SetLoading true; AccountGet;
          Fetch create_trip_url (create_trip_request (formData c) user);
          ConsoleError [LStr msg_error_generating; LErr e]; SetLoading false])
| path_json_rejected user resp e :
    passes_validation StringToNumber (formData c) = true ->
    account_get w = Fulfilled user ->
    falsy (dollar_id user) = false ->
    fetch w create_trip_url (create_trip_request (formData c) user) = Fulfilled resp ->
    json_promise resp = Rejected e ->
    submit_path StringToNumber w c
      (Normal tt,
       outcome c false (error c)
         [PreventDefault; SetLoading true; AccountGet;
          Fetch create_trip_url (create_trip_request (formData c) user);
          ConsoleError [LStr msg_error_generating; LErr e]; SetLoading false])
| path_no_trip_id user resp result :
    passes_validation StringToNumber (formData c) = true ->
    account_get w = Fulfilled user ->
    falsy (dollar_id user) = false ->
    fetch w create_trip_url (create_trip_request (formData c) user) = Fulfilled resp ->
    json_promise resp = Fulfilled result ->
    truthy_id result = None ->
    submit_path StringToNumber w c
      (Normal tt,
       outcome c false (error c)
         [PreventDefault; SetLoading true; AccountGet;
          Fetch create_trip_url (create_trip_request (formData c) user);
          ConsoleError [LStr msg_failed]; SetLoading false])
| path_navigated user resp result i :
    passes_validation StringToNumber (formData c) = true ->
    account_get w = Fulfilled user ->
    falsy (dollar_id user) = false ->
    fetch w create_trip_url (create_trip_request (formData c) user) = Fulfilled resp ->
    json_promise resp = Fulfilled result ->
    truthy_id result = Some i ->
    submit_path StringToNumber w c
      (Normal tt,
       outcome c false (error c)
         [PreventDefault; SetLoading true; AccountGet;
          Fetch create_trip_url (create_trip_request (formData c) user);
          Navigate (trip_detail_path i); SetLoading false]).

(** ** Vocabulary of the statements *)

(** A field holding a non-empty string. *)
Definition nonempty_string (v : value) : Prop :=
  exists s, v = VString s /\ s <> [].

(** The five required fields all hold non-empty strings. *)
Definition required_fields_filled (fd : TripFormData) : Prop :=
  nonempty_string (country fd) /\
  nonempty_string (travelStyle fd) /\
  nonempty_string (interest fd) /\
  nonempty_string (budget fd) /\
  nonempty_string (groupType fd).

(** At least one of the five required fields is the empty string. *)
Definition some_required_field_empty (fd : TripFormData) : Prop :=
  country fd = VString [] \/
  travelStyle fd = VString [] \/
  interest fd = VString [] \/
  budget fd = VString [] \/
  groupType fd = VString [].

(** The create-trip POST of this run was sent exactly once, its promise
    was fulfilled, and the response body parsed to [r]. *)
Definition post_parsed (w : World) (m : Machine) (r : option CreateTripResponse)
  : Prop :=
  exists init resp,
    fetches (effects m) = [(create_trip_url, init)] /\
    fetch w create_trip_url init = Fulfilled resp /\
    json_promise resp = Fulfilled r.

(** The parsed response carries the non-empty id [i]. *)
Definition has_id (r : option CreateTripResponse) (i : js_string) : Prop :=
  r = Some {| id := Some i |} /\ i <> [].

(** The parsed response is [null], or has no [id], or an empty one. *)
Definition lacks_id (r : option CreateTripResponse) : Prop :=
  r = None \/ r = Some {| id := None |} \/ r = Some {| id := Some [] |}.

(** The JSON body the spec describes, for a form of five strings and a
    number and a user id. *)
Definition expected_body (co ts it bu gt : js_string) (d : number) (uid : js_string)
  : json :=
  JObj [ (lit "country", JStr co);
         (lit "numberOfDays", JNum d);
         (lit "travelStyle", JStr ts);
         (lit "interests", JStr it);
         (lit "budget", JStr bu);
         (lit "groupType", JStr gt);
         (lit "userId", JStr uid) ].

(** ** Sample data *)

Definition no_StringToNumber : js_string -> number := fun _ => js_NaN.

Definition sample_form (d : value) : TripFormData :=
  {| country := VString (lit "Peru");
     travelStyle := VString (lit "Luxury");
     interest := VString (lit "Food");
     budget := VString (lit "Premium");
     duration := d;
     groupType := VString (lit "Solo") |}.

Definition sample_component (d : value) : Component :=
  {| formData := sample_form d; loading := false; error := None |}.

Definition num_3 : number := Eval cbv in number_of_Z 3.

(** A three-day form, complete. *)
Definition sample_valid : Component := sample_component (VNumber num_3).

(** The same with the [interest] field emptied. *)
Definition sample_empty_interest : Component :=
  {| formData := spread_with (sample_form (VNumber num_3)) k_interest (VString []);
     loading := false;
     error := None |}.

(** The same with a NaN duration. *)
Definition sample_NaN : Component := sample_component (VNumber js_NaN).

(** The same with eleven days. *)
Definition num_11 : number := Eval cbv in number_of_Z 11.
Definition sample_too_long : Component := sample_component (VNumber num_11).

(** A lower-casing that is right on ASCII text, for the examples. *)
Definition ascii_toLowerCase (s : js_string) : js_string :=
  map (fun u => if (65 <=? u)%N && (u <=? 90)%N then (u + 32)%N else u) s.

Definition sample_country (n : string) : Country.t :=
  {| Country.name := lit n;
     Country.coordinates := (num_0, num_0);
     Country.value := lit n;
     Country.openStreetMap := None |}.

Definition sample_countries : list Country.t :=
  [sample_country "Peru"; sample_country "United States"; sample_country "Estonia"].

Definition sample_user : User := {| dollar_id := VString (lit "u1") |}.

(** A world in which the user is signed in and the endpoint answers
    with the given parsed body. *)
Definition world_answering (r : option CreateTripResponse) : World :=
  {| account_get := Fulfilled sample_user;
     fetch := fun _ _ => Fulfilled {| ok := true; json_promise := Fulfilled r |} |}.

(** A world in which the user is signed in and the request fails. *)
Definition world_offline : World :=
  {| account_get := Fulfilled sample_user;
     fetch := fun _ _ => Rejected (Thrown (lit "Failed to fetch")) |}.

(** A world whose auth lookup rejects (no active session). *)
Definition world_signed_out : World :=
  {| account_get := Rejected (Thrown (lit "401"));
     fetch := fun _ _ => Rejected (Thrown (lit "unreachable")) |}.

(** A world whose auth lookup yields a user object without an id. *)
Definition world_anonymous : World :=
  {| account_get := Fulfilled {| dollar_id := VUndefined |};
     fetch := fun _ _ => Rejected (Thrown (lit "unreachable")) |}.

(* ================================================================== *)
(** * The rest of the route module *)
(* ================================================================== *)

(** ** The loader *)

(** A value parsed from JSON text.  An object is the list of its
    members in text order; of two members with the same key the later
    one counts. *)
#[warnings="-register-all"]
Inductive parsed :=
| PNull
| PBool (b : bool)
| PNum (n : number)
| PStr (s : js_string)
| PArr (items : list parsed)
| PObj (members : list (js_string * parsed)).

(** What the loader handles, its [data] being [any]: a parsed value, or
    [undefined] ([None]). *)
Definition any := option parsed.

(** The error of a failed property read, call or conversion.  One
    value stands for all of them: their messages differ between engines
    and the loader does not look at them. *)
Definition TypeError : thrown := Thrown (lit "TypeError").

(** [a === b] on strings (also used for property keys). *)
Fixpoint string_eqb (a b : js_string) : bool :=
  match a, b with
  | [], [] => true
  | x :: a', y :: b' => N.eqb x y && string_eqb a' b'
  | _, _ => false
  end.

(** The own property [k] of a parsed object. *)
Fixpoint own_property (members : list (js_string * parsed)) (k : js_string) : any :=
  match members with
  | [] => None
  | (k', v) :: rest =>
      match own_property rest k with
      | Some later => Some later
      | None => if string_eqb k' k then Some v else None
      end
  end.

(** [v.k] for a key that no prototype defines, as are all the keys the
    loader reads: reading from [undefined] or [null] throws, an object
    gives its own property, anything else gives [undefined]. *)
Definition read (v : any) (k : js_string) : completion any :=
  match v with
  | None | Some PNull => Throw TypeError
  | Some (PObj members) => Normal (own_property members k)
  | Some _ => Normal None
  end.

(** Sequencing of steps that may throw. *)
Definition and_then {A B} (c : completion A) (k : A -> completion B) : completion B :=
  match c with
  | Normal a => k a
  | Throw e => Throw e
  end.

Declare Scope throwing_scope.
Delimit Scope throwing_scope with throwing.
Notation "x <- c ;; k" := (and_then c (fun x => k))
  (at level 61, c at next level, right associativity) : throwing_scope.

(** [await p] outside a component *)
Definition awaited {A} (p : settled A) : completion A :=
  match p with
  | Fulfilled a => Normal a
  | Rejected e => Throw e
  end.

(** [parts.join(",")] *)
Fixpoint join (parts : list js_string) : js_string :=
  match parts with
  | [] => []
  | [p] => p
  | p :: rest => p ++ lit "," ++ join rest
  end.

(** [f] over a list, left to right, stopping at the first throw. *)
Fixpoint map_throwing {A B} (f : A -> completion B) (l : list A)
  : completion (list B) :=
  match l with
  | [] => Normal []
  | x :: l' =>
      (y <- f x ;;
       ys <- map_throwing f l' ;;
       Normal (y :: ys))%throwing
  end.

(** A country as the loader builds it.  Only [name], made by a
    template literal, is known to be a string; the other fields are
    whatever the response held. *)
Module Loaded.
Record t := {
  name : js_string;
  coordinates : any;
  value : any;
  openStreetMap : any
}.
End Loaded.

(** The response of the countries endpoint: what [response.json()]
    settles to. *)
Record CountriesResponse := {
  countries_json : settled parsed
}.

Definition restcountries_url : js_string := lit "https://restcountries.com/v3.1/all".

Section Loader.

(** The conversion of a number to a string is taken as given. *)
Variable NumberToString : number -> js_string.

(** [ToString] of a parsed value, as a template literal applies it.
    An array is joined with commas, its [null] items as empty strings;
    an object is [[object Object]], unless it has an own [toString]
    member, which is not callable and makes the conversion throw. *)
Fixpoint ToString (v : parsed) : completion js_string :=
  match v with
  | PNull => Normal (lit "null")
  | PBool b => Normal (if b then lit "true" else lit "false")
  | PNum n => Normal (NumberToString n)
  | PStr s => Normal s
  | PArr items =>
      match
        (fix each (l : list parsed) : completion (list js_string) :=
          match l with
          | [] => Normal []
          | x :: l' =>
              match match x with PNull => Normal [] | _ => ToString x end with
              | Throw e => Throw e
              | Normal part =>
                  match each l' with
                  | Throw e => Throw e
                  | Normal parts => Normal (part :: parts)
                  end
              end
          end) items
      with
      | Throw e => Throw e
      | Normal parts => Normal (join parts)
      end
  | PObj members =>
      match own_property members (lit "toString") with
      | Some _ => Throw TypeError
      | None => Normal (lit "[object Object]")
      end
  end.

(** [ToString] of a value that may be [undefined]. *)
Definition ToString_any (v : any) : completion js_string :=
  match v with
  | None => Normal (lit "undefined")
  | Some p => ToString p
  end.

(** [v?.k] *)
Definition read_optional (v : any) (k : js_string) : completion any :=
  match v with
  | None | Some PNull => Normal None
  | Some _ => read v k
  end.

(** The callback of [data.map]: the object literal's properties are
    evaluated in source order, the template literal's substitutions
    left to right. *)
Definition country_of (country : parsed) : completion Loaded.t :=
  (flag <- read (Some country) (lit "flag") ;;
   flag_text <- ToString_any flag ;;
   name <- read (Some country) (lit "name") ;;
   common <- read name (lit "common") ;;
   common_text <- ToString_any common ;;
   latlng <- read (Some country) (lit "latlng") ;;
   name' <- read (Some country) (lit "name") ;;
   common' <- read name' (lit "common") ;;
   maps <- read (Some country) (lit "maps") ;;
   openStreetMaps <- read_optional maps (lit "openStreetMaps") ;;
   Normal {| Loaded.name := flag_text ++ lit " " ++ common_text;
             Loaded.coordinates := latlng;
             Loaded.value := common';
             Loaded.openStreetMap := openStreetMaps |})%throwing.

(** [data.map(f)] for [data: any]: only an array has a [map] to call. *)
Definition data_map {B} (data : parsed) (f : parsed -> completion B)
  : completion (list B) :=
  match data with
  | PArr items => map_throwing f items
  | _ => Throw TypeError
  end.

(** [loader]; [get] is [fetch] with one argument.  Nothing is guarded:
    a rejected promise or a thrown error ends the loader. *)
Definition loader (get : js_string -> settled CountriesResponse)
  : completion (list Loaded.t) :=
  (response <- awaited (get restcountries_url) ;;
   data <- awaited (countries_json response) ;;
   countries <- data_map data country_of ;;
   Normal countries)%throwing.

End Loader.

(** [useLoaderData() as Country[]]: a loaded country read at the
    declared type, which it has when its value is a string, its
    coordinates a pair of numbers and its map link a string or absent. *)
Definition as_Country (c : Loaded.t) : option Country.t :=
  match Loaded.value c, Loaded.coordinates c with
  | Some (PStr v), Some (PArr [PNum lat; PNum lng]) =>
      match Loaded.openStreetMap c with
      | None =>
          Some {| Country.name := Loaded.name c; Country.coordinates := (lat, lng);
                  Country.value := v; Country.openStreetMap := None |}
      | Some (PStr link) =>
          Some {| Country.name := Loaded.name c; Country.coordinates := (lat, lng);
                  Country.value := v; Country.openStreetMap := Some link |}
      | Some _ => None
      end
  | _, _ => None
  end.

(** *** Vocabulary for the loader's statements *)

(** The member [k] of [v], [undefined] when [v] is no object or has
    none. *)
Definition member (v : any) (k : js_string) : any :=
  match v with
  | Some (PObj members) => own_property members k
  | _ => None
  end.

(** The values a template literal cannot print: an object with a
    [toString] member, or an array holding such a value. *)
Inductive unprintable : parsed -> Prop :=
| unprintable_object members :
    (exists v, In (lit "toString", v) members) -> unprintable (PObj members)
| unprintable_array items x :
    In x items -> unprintable x -> unprintable (PArr items).

(** The array items the callback throws on: [null]; an item whose
    [name] is missing or [null]; an item whose [flag] or [name.common]
    cannot be printed. *)
Definition unloadable (item : parsed) : Prop :=
  item = PNull \/
  (exists f, member (Some item) (lit "flag") = Some f /\ unprintable f) \/
  member (Some item) (lit "name") = None \/
  member (Some item) (lit "name") = Some PNull \/
  (exists c, member (member (Some item) (lit "name")) (lit "common") = Some c /\
             unprintable c).

(** A record of the countries API of the shape the page expects:
    [flag] and [name.common] strings, [latlng] a pair of numbers, and
    [maps.openStreetMaps] a string if present. *)
Module RawCountry.
Record maps_t := { openStreetMaps : option js_string }.
Record t := {
  flag : js_string;
  name_common : js_string;
  latlng : number * number;
  maps : option maps_t
}.
End RawCountry.

(** The [Country] the page expects for such a record. *)
Definition to_country (raw : RawCountry.t) : Country.t :=
  {| Country.name := RawCountry.flag raw ++ lit " " ++ RawCountry.name_common raw;
     Country.coordinates := RawCountry.latlng raw;
     Country.value := RawCountry.name_common raw;
     Country.openStreetMap :=
       match RawCountry.maps raw with
       | Some m => RawCountry.openStreetMaps m
       | None => None
       end |}.


(** ** The initial state *)

(** [x || ""] for an optional string [x]. *)
Definition or_empty (x : option js_string) : js_string :=
  match x with
  | Some (u :: s) => u :: s
  | _ => lit ""
  end.

(** [countries[0]?.value] *)
Definition first_value (countries : list Country.t) : option js_string :=
  match countries with
  | c :: _ => Some (Country.value c)
  | [] => None
  end.

(** The argument of [useState<TripFormData>]. *)
Definition initial_formData (countries : list Country.t) : TripFormData :=
  {| country := VString (or_empty (first_value countries));
     travelStyle := VString (lit "");
     interest := VString (lit "");
     budget := VString (lit "");
     duration := VNumber num_0;
     groupType := VString (lit "") |}.

(** The component as first rendered. *)
Definition initial_component (countries : list Country.t) : Component :=
  {| formData := initial_formData countries; loading := false; error := None |}.

(** ** The map preview *)

(** [s === v] for a string [s]: no conversion, so only a string can be
    equal to it. *)
Definition strict_equals (s : js_string) (v : value) : bool :=
  match v with
  | VString t => string_eqb s t
  | _ => false
  end.

(** [countries.find((c) => c.value === formData.country)] *)
Definition selectedCountry (countries : list Country.t) (fd : TripFormData)
  : option Country.t :=
  find (fun c => strict_equals (Country.value c) (country fd)) countries.

(** An entry of the map layer's data source. *)
Module MapDatum.
Record t := {
  country : value;
  color : js_string;
  coordinates : list number
}.
End MapDatum.

(** A [[lat, lng]] pair as the two-element array it is. *)
Definition pair_array (p : number * number) : list number := [fst p; snd p].

(** [mapData] *)
Definition mapData (countries : list Country.t) (fd : TripFormData)
  : list MapDatum.t :=
  [ {| MapDatum.country := country fd;
       MapDatum.color := lit "#EA382E";
       MapDatum.coordinates :=
         match selectedCountry countries fd with
         | Some c => pair_array (Country.coordinates c)
         | None => []
         end |} ].

(** [countryData], the country combo-box's data source. *)
Definition countryData (countries : list Country.t) : list Item.t :=
  map (fun c => {| Item.text := Country.name c; Item.value := Country.value c |})
      countries.

(** ** What is rendered from [error] *)

(** [{error && (...<p>{error}</p>...)}]: the message on show, if any. *)
Definition error_shown (c : Component) : option js_string :=
  match error c with
  | Some (u :: s) => Some (u :: s)
  | _ => None
  end.

(** ** The controls' callbacks *)

(** The country combo box:
    [change={(e) => { if (e.value) handleChange("country", e.value); }}] *)
Definition country_change (e_value : option js_string) : M unit :=
  match e_value with
  | Some (u :: s) => handleChange k_country (VString (u :: s))
  | _ => ret tt
  end.

(** A combo box of [selectItems.map((key) => ...)]:
    [change={(e) => { if (e.value) handleChange(key, e.value); }}] *)
Definition select_change (key : keyof_TripFormData) (e_value : option js_string)
  : M unit :=
  match e_value with
  | Some (u :: s) => handleChange key (VString (u :: s))
  | _ => ret tt
  end.

(** What a control can report. *)
Inductive control_event :=
| CountryChange (e_value : option js_string)
| DurationChange (target_value : js_string)
| SelectChange (key : keyof_TripFormData) (e_value : option js_string).

Section Controls.

Variable toLowerCase : js_string -> js_string.
Variable StringToNumber : js_string -> number.

(** The number input:
    [onChange={(e) => handleChange("duration", Number(e.target.value))}] *)
Definition duration_change (target_value : js_string) : M unit :=
  handleChange k_duration (VNumber (StringToNumber target_value)).

Definition on_event (ev : control_event) : M unit :=
  match ev with
  | CountryChange e_value => country_change e_value
  | DurationChange target_value => duration_change target_value
  | SelectChange key e_value => select_change key e_value
  end.

(** The callbacks of a sequence of events, one after the other. *)
Fixpoint on_events (evs : list control_event) : M unit :=
  match evs with
  | [] => ret tt
  | ev :: rest => (on_event ev ;; on_events rest)%js
  end.

(** The [filtering] callback of a [selectItems] combo box over its
    items [comboBoxItems[key]]: the argument of [e.updateData]. *)
Definition select_filtering (items : list js_string) (text : option js_string)
  : list Item.t :=
  let q := toLowerCase (query_of text) in
  map (fun item => {| Item.text := item; Item.value := item |})
      (filter (fun item => includes (toLowerCase item) q) items).

End Controls.

(** ** The number input *)

Definition is_digit (u : code_unit) : bool := (48 <=? u)%N && (u <=? 57)%N.

Fixpoint drop_digits (s : js_string) : js_string :=
  match s with
  | u :: s' => if is_digit u then drop_digits s' else s
  | [] => []
  end.

Definition starts_with_digit (s : js_string) : bool :=
  match s with
  | u :: _ => is_digit u
  | [] => false
  end.

(** An optional exponent: nothing, or [e] or [E], an optional sign and
    one or more digits. *)
Definition is_exponent_or_empty (s : js_string) : bool :=
  match s with
  | [] => true
  | u :: r =>
      if (u =? 101)%N || (u =? 69)%N then
        let digits :=
          match r with
          | v :: t => if (v =? 43)%N || (v =? 45)%N then t else r
          | [] => r
          end in
        starts_with_digit digits &&
        match drop_digits digits with [] => true | _ :: _ => false end
      else false
  end.

(** The strings an [<input type="number">] accepts, the "valid
    floating-point numbers" of HTML: an optional [-], then digits, or
    [.] and digits, or both, then an optional exponent. *)
Definition is_valid_float_string (s : js_string) : bool :=
  let unsigned :=
    match s with
    | u :: r => if (u =? 45)%N then r else s
    | [] => s
    end in
  match drop_digits unsigned with
  | u :: r =>
      if (u =? 46)%N
      then starts_with_digit r && is_exponent_or_empty (drop_digits r)
      else starts_with_digit unsigned && is_exponent_or_empty (u :: r)
  | [] => starts_with_digit unsigned
  end.

(** [e.target.value] of the duration input ([type="number"], lines
    181-190) for the text in the box: the browser hands out the text
    when it is a valid floating-point number and the empty string
    otherwise. *)
Definition number_input_value (typed : js_string) : js_string :=
  if is_valid_float_string typed then typed else [].

(** The durations the page can hold: the [0] of the initial state, or
    [Number(e.target.value)] stored by the input's [onChange]. *)
Definition holdable_duration (StringToNumber : js_string -> number) (d : number)
  : Prop :=
  d = num_0 \/ exists typed, d = StringToNumber (number_input_value typed).

(** ** Vocabulary of the further statements *)

(** The component after a sequence of control events. *)
Definition after_events (StringToNumber : js_string -> number)
  (evs : list control_event) (c : Component) : Component :=
  component (snd (on_events StringToNumber evs (start c))).

(** [c] is the first country of the list whose value is [s]. *)
Definition first_with_value (countries : list Country.t) (s : js_string)
  (c : Country.t) : Prop :=
  exists before after,
    countries = before ++ c :: after /\
    Country.value c = s /\
    forall x, In x before -> Country.value x <> s.

(** The world [w] with the status flag of every response set to [b]. *)
Definition with_ok (b : bool) (w : World) : World :=
  {| account_get := account_get w;
     fetch := fun url init =>
       match fetch w url init with
       | Fulfilled resp => Fulfilled {| ok := b; json_promise := json_promise resp |}
       | Rejected e => Rejected e
       end |}.

(** A form whose fields have their declared types. *)
Definition typed_form (co ts it bu gt : js_string) (d : number) : TripFormData :=
  {| country := VString co; travelStyle := VString ts; interest := VString it;
     budget := VString bu; duration := VNumber d; groupType := VString gt |}.

(** ** Further sample data *)

(** A stand-in for [Number] on strings, for the examples: right on the
    empty string and on strings of digits, infinite on the other valid
    floating-point numbers, NaN elsewhere. *)
Definition digits_value (s : js_string) : Z :=
  fold_left (fun acc u => 10 * acc + Z.of_N (u - 48)) s 0.

Definition as_double (n : number) : number :=
  match n with
  | S754_nan => js_Infinity
  | _ => if valid_binary prec emax n then n else js_Infinity
  end.

Definition sample_Number (s : js_string) : number :=
  match s with
  | [] => num_0
  | _ :: _ =>
      if is_valid_float_string s then
        if forallb is_digit s then as_double (number_of_Z (digits_value s))
        else js_Infinity
      else js_NaN
  end.


(** The complete form after [abc] was typed into the duration box. *)
Definition sample_typed_abc : Component :=
  sample_component (VNumber (sample_Number (number_input_value (lit "abc")))).

Definition sample_raw (f n : string) (lat lng : Z) : RawCountry.t :=
  {| RawCountry.flag := lit f;
     RawCountry.name_common := lit n;
     RawCountry.latlng := (number_of_Z lat, number_of_Z lng);
     RawCountry.maps := None |}.

(** The record as the API sends it, among other members. *)
Definition sample_item (f n : string) (lat lng : Z) : parsed :=
  PObj [ (lit "name", PObj [(lit "common", PStr (lit n));
                            (lit "official", PStr (lit n))]);
         (lit "independent", PBool true);
         (lit "latlng", PArr [PNum (number_of_Z lat); PNum (number_of_Z lng)]);
         (lit "flag", PStr (lit f)) ].

Definition sample_records : list RawCountry.t :=
  [sample_raw "PE" "Peru" (-10) (-76); sample_raw "EE" "Estonia" 59 26].

Definition sample_items : list parsed :=
  [sample_item "PE" "Peru" (-10) (-76); sample_item "EE" "Estonia" 59 26].

Definition sample_get : js_string -> settled CountriesResponse :=
  fun _ => Fulfilled {| countries_json := Fulfilled (PArr sample_items) |}.

Definition sample_get_failing : js_string -> settled CountriesResponse :=
  fun _ => Rejected (Thrown (lit "Failed to fetch")).

(** The endpoint answering with an error object instead of a list. *)
Definition sample_get_error_body : js_string -> settled CountriesResponse :=
  fun _ => Fulfilled {| countries_json :=
                          Fulfilled (PObj [(lit "message", PStr (lit "Not Found"));
                                           (lit "status", PNum (number_of_Z 404))]) |}.

(** The endpoint answering with a list one of whose records has no
    [name]. *)
Definition sample_get_nameless : js_string -> settled CountriesResponse :=
  fun _ => Fulfilled {| countries_json :=
                          Fulfilled (PArr [sample_item "PE" "Peru" (-10) (-76);
                                           PObj [(lit "flag", PStr (lit "EE"))]]) |}.

(** What the loader makes of [sample_items]. *)
Definition sample_loaded : list Loaded.t :=
  [ {| Loaded.name := lit "PE Peru";
       Loaded.coordinates := Some (PArr [PNum (number_of_Z (-10)); PNum (number_of_Z (-76))]);
       Loaded.value := Some (PStr (lit "Peru"));
       Loaded.openStreetMap := None |};
    {| Loaded.name := lit "EE Estonia";
       Loaded.coordinates := Some (PArr [PNum (number_of_Z 59); PNum (number_of_Z 26)]);
       Loaded.value := Some (PStr (lit "Estonia"));
       Loaded.openStreetMap := None |} ].

(** A stand-in for the conversion of numbers to strings, for the
    examples (none of which prints a number). *)
Definition no_NumberToString : number -> js_string := fun _ => lit "?".

(* ================================================================== *)
(** * Numbers: comparison against the two bounds *)
(* ================================================================== *)

Lemma digits2_pos_bounds (m : positive) :
  2 ^ (Zpos (digits2_pos m) - 1) <= Zpos m < 2 ^ Zpos (digits2_pos m).
Proof.
  induction m as [m IH | m IH |]; cbn [digits2_pos].
  - rewrite Pos2Z.inj_succ.
    replace (Z.succ (Zpos (digits2_pos m)) - 1) with (Z.succ (Zpos (digits2_pos m) - 1)) by lia.
    rewrite !Z.pow_succ_r by lia. lia.
  - rewrite Pos2Z.inj_succ.
    replace (Z.succ (Zpos (digits2_pos m)) - 1) with (Z.succ (Zpos (digits2_pos m) - 1)) by lia.
    rewrite !Z.pow_succ_r by lia. lia.
  - cbn. lia.
Qed.

Lemma double_mantissa (m : positive) (e : Z) :
  bounded prec emax m e = true ->
  Zpos m < 2 ^ 53 /\ (-1074 < e -> 2 ^ 52 <= Zpos m) /\ -1074 <= e <= 971.
Proof.
  unfold bounded, canonical_mantissa, fexp, emin, prec, emax.
  intros H. apply andb_true_iff in H. destruct H as [Hc He].
  apply Z.eqb_eq in Hc. apply Z.leb_le in He.
  pose proof (digits2_pos_bounds m) as [Hlo Hhi].
  set (d := Zpos (digits2_pos m)) in *.
  assert (Hd : d <= 53) by lia.
  split; [| split].
  - apply Z.lt_le_trans with (2 ^ d); [exact Hhi |].
    apply Z.pow_le_mono_r; lia.
  - intros Hn. assert (d = 53) by lia.
    replace 52 with (d - 1) by lia. exact Hlo.
  - lia.
Qed.

Lemma pow2_pos_Z (p : positive) : Zpos (2 ^ p) = 2 ^ Zpos p.
Proof. apply Pos2Z.inj_pow. Qed.

Lemma pow2_le (a b : Z) : 0 <= a <= b -> 2 ^ a <= 2 ^ b.
Proof. intros. apply Z.pow_le_mono_r; lia. Qed.

Lemma compare_cont_Eq (a b : positive) : Pos.compare_cont Eq a b = Pos.compare a b.
Proof. reflexivity. Qed.

Lemma pos_compare_Lt_iff (a b : positive) :
  match (a ?= b)%positive with Lt => true | _ => false end = true <-> Zpos a < Zpos b.
Proof.
  destruct (Pos.compare_spec a b); split; intros Hx;
    first [reflexivity | discriminate Hx | lia].
Qed.

Lemma num_lt_1_spec (s : bool) (m : positive) (e : Z) :
  bounded prec emax m e = true ->
  num_lt (S754_finite s m e) num_1 = true <-> (Q_of_finite s m e < 1)%Q.
Proof.
  intros Hb. apply double_mantissa in Hb. destruct Hb as (Hhi & Hlo & He).
  unfold num_lt, SFltb, SFcompare, num_1, Q_of_finite, Qlt.
  destruct s.
  - split; [intros _ | reflexivity].
    destruct e; cbn [Qnum Qden Qopp]; lia.
  - rewrite compare_cont_Eq.
    destruct e as [| p | p]; cbn [Qnum Qden].
    + cbn. split; [discriminate | lia].
    + cbn [Z.compare]. split; [discriminate | lia].
    + rewrite pow2_pos_Z.
      destruct (Z.compare_spec (Zneg p) (-52)) as [E | E | E].
      * assert (p = 52%positive) by lia. subst p.
        rewrite pos_compare_Lt_iff. lia.
      * split; [intros _ | reflexivity].
        pose proof (@pow2_le 53 (Zpos p)). lia.
      * split; [discriminate |].
        pose proof (@pow2_le (Zpos p) 52). lia.
Qed.

Lemma num_gt_10_spec (s : bool) (m : positive) (e : Z) :
  bounded prec emax m e = true ->
  num_gt (S754_finite s m e) num_10 = true <-> (10 < Q_of_finite s m e)%Q.
Proof.
  intros Hb. apply double_mantissa in Hb. destruct Hb as (Hhi & Hlo & He).
  unfold num_gt, SFltb, SFcompare, num_10, Q_of_finite, Qlt.
  destruct s.
  - split; [discriminate |].
    destruct e; cbn [Qnum Qden Qopp]; lia.
  - rewrite compare_cont_Eq.
    destruct e as [| p | p]; cbn [Qnum Qden].
    + cbn [Z.compare]. split; [intros _ | reflexivity]. lia.
    + cbn [Z.compare]. split; [intros _ | reflexivity].
      rewrite Pos2Z.inj_mul, pow2_pos_Z.
      assert (1 <= 2 ^ Zpos p) by (apply (@pow2_le 0); lia). nia.
    + rewrite pow2_pos_Z.
      destruct (Z.compare_spec (-49) (Zneg p)) as [E | E | E].
      * assert (p = 49%positive) by lia. subst p.
        rewrite pos_compare_Lt_iff. lia.
      * split; [intros _ | reflexivity].
        pose proof (@pow2_le (Zpos p) 48).
        change (2 ^ 52) with (16 * 2 ^ 48) in Hlo. lia.
      * split; [discriminate |].
        pose proof (@pow2_le 50 (Zpos p)).
        change (2 ^ 53) with (8 * 2 ^ 50) in Hhi. lia.
Qed.

(** The two comparisons of the duration check, read as a statement about
    the number's value: the check lets through the doubles whose value is
    in [[1, 10]], and NaN. *)
Lemma bounds_check_spec (n : number) :
  is_double n ->
  num_lt n num_1 || num_gt n num_10 = false <->
  in_interval 1 10 n \/ n = S754_nan.
Proof.
  intros Hd. destruct n as [s | s | | s m e].
  - split; [discriminate |].
    intros [[H _] | H]; [| discriminate H].
    exfalso. revert H. unfold Qle. cbn. lia.
  - split.
    + destruct s; discriminate.
    + intros [[] | H]; discriminate H.
  - split; [right; reflexivity | reflexivity].
  - pose proof (num_lt_1_spec s m e Hd) as L.
    pose proof (num_gt_10_spec s m e Hd) as G.
    unfold in_interval, real_value.
    change (inject_Z 1) with 1%Q. change (inject_Z 10) with (10 # 1)%Q.
    rewrite orb_false_iff. split.
    + intros [Hl Hg]. left. split.
      * apply Qnot_lt_le. intros Hq. apply L in Hq. congruence.
      * apply Qnot_lt_le. intros Hq. apply G in Hq. congruence.
    + intros [[H1 H10] | H]; [| discriminate H]. split.
      * destruct (num_lt (S754_finite s m e) num_1) eqn:E; [| reflexivity].
        exfalso. apply (Qle_not_lt _ _ H1). apply L. reflexivity.
      * destruct (num_gt (S754_finite s m e) num_10) eqn:E; [| reflexivity].
        exfalso. apply (Qle_not_lt _ _ H10). apply G. reflexivity.
Qed.

(* ================================================================== *)
(** * Strings: [includes] finds exactly the substrings *)
(* ================================================================== *)

Lemma startsWith_spec (s q : js_string) :
  startsWith s q = true <-> exists post, s = q ++ post.
Proof.
  revert s. induction q as [| b q IH]; intros s.
  - split; [intros _; exists s; reflexivity | intros _; destruct s; reflexivity].
  - destruct s as [| a s]; cbn [startsWith].
    + split; [discriminate | intros [post H]; discriminate H].
    + rewrite andb_true_iff. unfold code_unit_eqb. rewrite N.eqb_eq, IH.
      split.
      * intros [-> [post ->]]. exists post. reflexivity.
      * intros [post H]. injection H as -> ->. split; [reflexivity | now exists post].
Qed.

Lemma includes_spec (s q : js_string) :
  includes s q = true <-> substring_of q s.
Proof.
  unfold substring_of. induction s as [| a s IH].
  - cbn [includes]. rewrite orb_false_r, startsWith_spec. split.
    + intros [post H]. exists [], post. exact H.
    + intros (pre & post & H). destruct pre as [| x pre]; [| discriminate H].
      exists post. exact H.
  - cbn [includes]. rewrite orb_true_iff, startsWith_spec, IH. split.
    + intros [[post H] | (pre & post & H)].
      * exists [], post. exact H.
      * exists (a :: pre), post. rewrite H. reflexivity.
    + intros (pre & post & H). destruct pre as [| x pre].
      * left. exists post. exact H.
      * right. injection H as _ H. exists pre, post. exact H.
Qed.

Lemma selects_filter {A : Type} (P : A -> Prop) (p : A -> bool) (l : list A) :
  (forall x, p x = true <-> P x) ->
  selects P l (filter p l).
Proof.
  intros Hp. induction l as [| x l IH]; cbn [filter].
  - constructor.
  - destruct (p x) eqn:E.
    + apply selects_keep; [apply Hp; exact E | exact IH].
    + apply selects_drop; [| exact IH].
      intros HP. apply Hp in HP. congruence.
Qed.

Lemma selects_In {A : Type} (P : A -> Prop) (l kept : list A) :
  selects P l kept ->
  forall x, In x kept <-> In x l /\ P x.
Proof.
  induction 1 as [| x l kept Hx _ IH | x l kept Hx _ IH]; intros y; cbn [In].
  - tauto.
  - rewrite IH. split.
    + intros [<- | [Hy HP]]; tauto.
    + intros [[<- | Hy] HP]; tauto.
  - rewrite IH. split.
    + tauto.
    + intros [[<- | Hy] HP]; tauto.
Qed.

(** [selects] determines its result. *)
Lemma selects_unique {A : Type} (P : A -> Prop) (l k1 k2 : list A) :
  selects P l k1 -> selects P l k2 -> k1 = k2.
Proof.
  intros H1. revert k2.
  induction H1 as [| x l kept Hx _ IH | x l kept Hx _ IH]; intros k2 H2;
    inversion H2; subst; try contradiction.
  - reflexivity.
  - f_equal. now apply IH.
  - now apply IH.
Qed.

(* ================================================================== *)
(** * The country filter *)
(* ================================================================== *)

(** C3.  For every country list and every query text, the list that the
    country combo-box's [filtering] callback hands to [updateData] is the
    [{text, value}] image of the countries kept by selecting, in list
    order, exactly those whose lower-cased display name contains the
    lower-cased query as a substring; a country is among the kept ones if
    and only if it is in the list and its name matches. *)
Theorem filtering_keeps_exactly_the_matching_countries
  (toLowerCase : js_string -> js_string)
  (countries : list Country.t) (text : option js_string) :
  let matches c :=
    substring_of (toLowerCase (query_of text)) (toLowerCase (Country.name c)) in
  exists kept,
    selects matches countries kept /\
    (forall c, In c kept <-> In c countries /\ matches c) /\
    filtering toLowerCase countries text = map item_of kept.
Proof.
  intros matches.
  exists (filter (fun c => includes (toLowerCase (Country.name c))
                                    (toLowerCase (query_of text))) countries).
  assert (Hsel : selects matches countries
            (filter (fun c => includes (toLowerCase (Country.name c))
                                       (toLowerCase (query_of text))) countries)).
  { apply selects_filter. intros c. apply includes_spec. }
  split; [exact Hsel |]. split.
  - apply selects_In. exact Hsel.
  - reflexivity.
Qed.

(* ================================================================== *)
(** * The field setter *)
(* ================================================================== *)

Lemma get_spread_with (s : TripFormData) (key k : keyof_TripFormData) (v : value) :
  get (spread_with s key v) k = if key_eqb k key then v else get s k.
Proof. destruct key, k; reflexivity. Qed.

Lemma key_eqb_eq (a b : keyof_TripFormData) : key_eqb a b = true <-> a = b.
Proof. destruct a, b; cbn; split; (reflexivity || discriminate). Qed.

(** C10.  For every component state, every field key and every value,
    [handleChange] completes normally and leaves a form state whose
    field [key] holds the new value while every other field of
    [TripFormData] reads as before; [loading] and [error] are untouched
    and nothing else is done. *)
Theorem handleChange_updates_only_the_named_field
  (c : Component) (key : keyof_TripFormData) (v : value) :
  let r := handleChange key v (start c) in
  fst r = Normal tt /\
  (forall k, get (formData (component (snd r))) k
             = if key_eqb k key then v else get (formData c) k) /\
  loading (component (snd r)) = loading c /\
  error (component (snd r)) = error c /\
  effects (snd r) = [].
Proof.
  cbn. repeat split. intros k. apply get_spread_with.
Qed.

(* ================================================================== *)
(** * The submit handler, path by path *)
(* ================================================================== *)

(** Runs the primitives of the effect monad as far as they go. *)
Ltac run_handler :=
  cbv beta iota delta
    [submit handleSubmit post_and_navigate try_catch_finally bind await
     setLoading setError console_error navigate preventDefault useFormData
     emit update ret start outcome
     component effects formData loading error account_get fetch app].

(** Applies a path constructor at the world and component of the goal. *)
Ltac take path :=
  match goal with
  | |- submit_path ?s0 ?w0 ?c0 _ => apply (path s0 w0 c0)
  end.

Section Submission.

Variable StringToNumber : js_string -> number.

(** The handler follows one of the eight paths. *)
Lemma handleSubmit_path (w : World) (c : Component) :
  submit_path StringToNumber w c (submit StringToNumber w c).
Proof.
  destruct c as [fd ld err], w as [auth net].
  run_handler.
  destruct (missing_required_field fd) eqn:Hm.
  { apply path_missing_field. exact Hm. }
  destruct (duration_out_of_bounds StringToNumber fd) eqn:Hd.
  { apply path_bad_duration; assumption. }
  assert (Hv : passes_validation StringToNumber fd = true).
  { unfold passes_validation. rewrite Hm, Hd. reflexivity. }
  destruct auth as [user | e].
  2: { apply path_auth_rejected; [exact Hv | reflexivity]. }
  destruct (falsy (dollar_id user)) eqn:Hu.
  { take (fun s0 w0 c0 => @path_no_user_id s0 w0 c0 user); [exact Hv | reflexivity | exact Hu]. }
  destruct (net create_trip_url (create_trip_request fd user)) as [resp | e] eqn:Hf.
  2: { take (fun s0 w0 c0 => @path_fetch_rejected s0 w0 c0 user e);
       [exact Hv | reflexivity | exact Hu | exact Hf]. }
  destruct (json_promise resp) as [result | e] eqn:Hj.
  2: { take (fun s0 w0 c0 => @path_json_rejected s0 w0 c0 user resp e);
       [exact Hv | reflexivity | exact Hu | exact Hf | exact Hj]. }
  destruct (truthy_id result) as [i |] eqn:Hi.
  - take (fun s0 w0 c0 => @path_navigated s0 w0 c0 user resp result i);
      [exact Hv | reflexivity | exact Hu | exact Hf | exact Hj | exact Hi].
  - take (fun s0 w0 c0 => @path_no_trip_id s0 w0 c0 user resp result);
      [exact Hv | reflexivity | exact Hu | exact Hf | exact Hj | exact Hi].
Qed.

(** ** What the two validation conditions mean *)

Lemma falsy_empty_string : falsy (VString []) = true.
Proof. reflexivity. Qed.

Lemma falsy_nonempty_string (v : value) : nonempty_string v -> falsy v = false.
Proof.
  intros (s & -> & Hs). destruct s; [contradiction | reflexivity].
Qed.

Lemma empty_field_is_missing (fd : TripFormData) :
  some_required_field_empty fd -> missing_required_field fd = true.
Proof.
  unfold some_required_field_empty, missing_required_field.
  intros [H | [H | [H | [H | H]]]]; rewrite H, falsy_empty_string;
    rewrite ?orb_true_r; reflexivity.
Qed.

Lemma filled_fields_are_not_missing (fd : TripFormData) :
  required_fields_filled fd -> missing_required_field fd = false.
Proof.
  unfold required_fields_filled, missing_required_field.
  intros (H1 & H2 & H3 & H4 & H5).
  rewrite !falsy_nonempty_string by assumption. reflexivity.
Qed.

Lemma NaN_duration_is_within_bounds (fd : TripFormData) :
  duration fd = VNumber js_NaN -> duration_out_of_bounds StringToNumber fd = false.
Proof.
  unfold duration_out_of_bounds. intros ->. reflexivity.
Qed.

Lemma duration_bounds_spec (fd : TripFormData) (d : number) :
  duration fd = VNumber d ->
  is_double d ->
  duration_out_of_bounds StringToNumber fd = false <->
  in_interval 1 10 d \/ d = js_NaN.
Proof.
  unfold duration_out_of_bounds, js_lt, js_gt. intros -> Hd.
  cbn [ToNumber]. now apply bounds_check_spec.
Qed.

Lemma passes_validation_spec (fd : TripFormData) :
  passes_validation StringToNumber fd = true <->
  missing_required_field fd = false /\
  duration_out_of_bounds StringToNumber fd = false.
Proof.
  unfold passes_validation.
  rewrite andb_true_iff, !negb_true_iff. reflexivity.
Qed.

Lemma truthy_id_spec (r : option CreateTripResponse) (i : js_string) :
  truthy_id r = Some i <-> has_id r i.
Proof.
  unfold has_id. destruct r as [[[[| a j] |]] |]; cbn; split.
  all: try discriminate.
  all: try (intros [H _]; discriminate H).
  - intros [H Hne]. injection H as <-. contradiction.
  - intros H. injection H as <-. split; [reflexivity | discriminate].
  - intros [H _]. injection H as <-. reflexivity.
Qed.

Lemma truthy_id_none (r : option CreateTripResponse) :
  truthy_id r = None <-> lacks_id r.
Proof.
  unfold lacks_id. destruct r as [[[[| a j] |]] |]; cbn; split.
  all: try discriminate; try tauto.
  intros [H | [H | H]]; discriminate H.
Qed.

(** Splits a goal about a run of the handler into the eight paths. *)
Ltac along_paths :=
  match goal with
  | |- context [submit ?s0 ?w0 ?c0] =>
      let r := fresh "r" in
      let P := fresh "P" in
      generalize (handleSubmit_path w0 c0);
      generalize (submit s0 w0 c0);
      intros r P; destruct P
  end.

(** Closes a path that the hypotheses on the form rule out. *)
Ltac off_path :=
  exfalso;
  repeat match goal with
  | H : passes_validation _ _ = true |- _ =>
      apply passes_validation_spec in H; destruct H
  end;
  congruence.

(** ** Validation failures *)

(** C1.  Whenever at least one of [country], [travelStyle], [interest],
    [budget], [groupType] is the empty string, the submit handler
    completes normally having set the error message to "Please provide
    input for all fields" (and nothing else as error), having issued no
    network call at all (no auth lookup, no POST), and having left the
    form data as it was; [loading] is back to [false]. *)
Theorem submit_with_an_empty_required_field_is_rejected
  (w : World) (c : Component) :
  some_required_field_empty (formData c) ->
  fst (submit StringToNumber w c) = Normal tt /\
  error (component (snd (submit StringToNumber w c))) = Some msg_all_fields /\
  error_messages (effects (snd (submit StringToNumber w c))) = [msg_all_fields] /\
  network_calls (effects (snd (submit StringToNumber w c))) = [] /\
  formData (component (snd (submit StringToNumber w c))) = formData c /\
  loading (component (snd (submit StringToNumber w c))) = false.
Proof.
  intros He. apply empty_field_is_missing in He.
  along_paths; try off_path.
  repeat split.
Qed.

(** A duration that is a number other than NaN and lies outside
    [[1, 10]] is rejected with the duration message, before any network
    call. *)
Lemma submit_with_a_number_out_of_range_is_rejected
  (w : World) (c : Component) (d : number) :
  required_fields_filled (formData c) ->
  duration (formData c) = VNumber d ->
  is_double d ->
  d <> js_NaN ->
  ~ in_interval 1 10 d ->
  fst (submit StringToNumber w c) = Normal tt /\
  error (component (snd (submit StringToNumber w c))) = Some msg_duration /\
  error_messages (effects (snd (submit StringToNumber w c))) = [msg_duration] /\
  network_calls (effects (snd (submit StringToNumber w c))) = [] /\
  loading (component (snd (submit StringToNumber w c))) = false.
Proof.
  intros Hf Hd Hdbl Hnan Hout.
  apply filled_fields_are_not_missing in Hf.
  assert (Ho : duration_out_of_bounds StringToNumber (formData c) = true).
  { destruct (duration_out_of_bounds StringToNumber (formData c)) eqn:E;
      [reflexivity |].
    apply (duration_bounds_spec _ Hd Hdbl) in E. tauto. }
  along_paths; try off_path.
  repeat split.
Qed.

(** The duration check by itself lets NaN through: with the five
    required fields filled and a NaN duration no error message is set
    and the auth lookup is issued.  The number input cannot produce
    that state (see [holdable_duration_is_not_NaN]). *)
Lemma submit_with_NaN_duration_is_not_rejected
  (w : World) (c : Component) :
  required_fields_filled (formData c) ->
  duration (formData c) = VNumber js_NaN ->
  error_messages (effects (snd (submit StringToNumber w c))) = [] /\
  error (component (snd (submit StringToNumber w c))) = error c /\
  In AccountGet (network_calls (effects (snd (submit StringToNumber w c)))).
Proof.
  intros Hf Hd.
  apply filled_fields_are_not_missing in Hf.
  apply NaN_duration_is_within_bounds in Hd.
  along_paths; try off_path.
  all: repeat split; cbn; tauto.
Qed.

(** ** The auth lookup *)

(** C7.  When validation passes and the auth lookup yields a user whose
    [$id] is falsy, the handler completes normally having logged "User
    not authenticated" to the console and reset [loading] to [false]; the
    auth lookup is its only network call (no POST), and no error message
    is set. *)
Theorem user_without_id_aborts_the_submission
  (w : World) (c : Component) (user : User) :
  passes_validation StringToNumber (formData c) = true ->
  account_get w = Fulfilled user ->
  falsy (dollar_id user) = true ->
  fst (submit StringToNumber w c) = Normal tt /\
  console_errors (effects (snd (submit StringToNumber w c)))
    = [[LStr msg_not_authenticated]] /\
  loading (component (snd (submit StringToNumber w c))) = false /\
  network_calls (effects (snd (submit StringToNumber w c))) = [AccountGet] /\
  fetches (effects (snd (submit StringToNumber w c))) = [] /\
  error_messages (effects (snd (submit StringToNumber w c))) = [] /\
  error (component (snd (submit StringToNumber w c))) = error c.
Proof.
  intros Hv Ha Hu.
  apply passes_validation_spec in Hv. destruct Hv as [Hm Hd].
  along_paths; try off_path.
  repeat split.
Qed.

(** C8, at the input where the code departs from it.  When validation
    passes and the auth lookup rejects, the handler logs nothing: its
    promise is rejected with the lookup's reason, and its only effects
    are [preventDefault], [setLoading(true)] and the lookup itself. *)
Theorem rejected_auth_lookup_is_not_logged
  (w : World) (c : Component) (e : thrown) :
  passes_validation StringToNumber (formData c) = true ->
  account_get w = Rejected e ->
  fst (submit StringToNumber w c) = Throw e /\
  console_errors (effects (snd (submit StringToNumber w c))) = [] /\
  effects (snd (submit StringToNumber w c))
    = [PreventDefault; SetLoading true; AccountGet].
Proof.
  intros Hv Ha.
  apply passes_validation_spec in Hv. destruct Hv as [Hm Hd].
  along_paths; try off_path.
  assert (e0 = e) by congruence. subst e0.
  repeat split.
Qed.

(** The failures that happen inside the [try] block are logged: a
    rejected [fetch] or a rejected [resp.json()] ends in one
    [console.error] carrying the reason, no error message, and a
    normal completion. *)
Lemma caught_failure_is_logged
  (w : World) (c : Component) (user : User) (e : thrown) :
  passes_validation StringToNumber (formData c) = true ->
  account_get w = Fulfilled user ->
  falsy (dollar_id user) = false ->
  (fetch w create_trip_url (create_trip_request (formData c) user) = Rejected e \/
   exists resp,
     fetch w create_trip_url (create_trip_request (formData c) user) = Fulfilled resp /\
     json_promise resp = Rejected e) ->
  fst (submit StringToNumber w c) = Normal tt /\
  console_errors (effects (snd (submit StringToNumber w c)))
    = [[LStr msg_error_generating; LErr e]] /\
  error_messages (effects (snd (submit StringToNumber w c))) = [] /\
  navigations (effects (snd (submit StringToNumber w c))) = [] /\
  loading (component (snd (submit StringToNumber w c))) = false.
Proof.
  intros Hv Ha Hu Hfail.
  apply passes_validation_spec in Hv. destruct Hv as [Hm Hd].
  along_paths; try off_path.
  all: try (exfalso; destruct Hfail as [Hf | (resp' & Hf & Hj)]; congruence).
  all: assert (e0 = e)
         by (destruct Hfail as [Hf | (resp' & Hf & Hj)]; congruence);
       subst e0; repeat split.
Qed.

(** ** The loading flag *)

(** C9, at the input where the code departs from it.  When validation
    passes and the auth lookup rejects, the handler ends with [loading]
    still [true]: it was written once, to [true], and never reset, so
    the submit button stays disabled. *)
Theorem rejected_auth_lookup_leaves_loading_set
  (w : World) (c : Component) (e : thrown) :
  passes_validation StringToNumber (formData c) = true ->
  account_get w = Rejected e ->
  loading (component (snd (submit StringToNumber w c))) = true /\
  submit_disabled (component (snd (submit StringToNumber w c))) = true /\
  loading_writes (effects (snd (submit StringToNumber w c))) = [true].
Proof.
  intros Hv Ha.
  apply passes_validation_spec in Hv. destruct Hv as [Hm Hd].
  along_paths; try off_path.
  repeat split.
Qed.

(** On every other path [loading] is set to [true] first and reset to
    [false] last. *)
Lemma loading_is_reset_unless_the_auth_lookup_rejects
  (w : World) (c : Component) :
  (passes_validation StringToNumber (formData c) = true ->
   exists user, account_get w = Fulfilled user) ->
  fst (submit StringToNumber w c) = Normal tt /\
  loading (component (snd (submit StringToNumber w c))) = false /\
  loading_writes (effects (snd (submit StringToNumber w c))) = [true; false].
Proof.
  intros Hok.
  along_paths; try (repeat split; fail).
  exfalso. destruct (Hok H) as [user Hu]. congruence.
Qed.

(** ** The request *)

Lemma create_trip_request_of_valid_form
  (fd : TripFormData) (user : User)
  (co ts it bu gt uid : js_string) (d : number) :
  fd = {| country := VString co; travelStyle := VString ts;
          interest := VString it; budget := VString bu;
          duration := VNumber d; groupType := VString gt |} ->
  in_interval 1 10 d ->
  dollar_id user = VString uid ->
  create_trip_request fd user
  = {| method := lit "POST";
       headers := [(lit "Content-Type", lit "application/json")];
       body := expected_body co ts it bu gt d uid |}.
Proof.
  intros -> Hd Hu. unfold create_trip_request, expected_body, JSON_stringify.
  cbn [country travelStyle interest budget duration groupType].
  rewrite Hu. f_equal. f_equal.
  destruct d as [sg | sg | | sg m e]; try contradiction.
  - exfalso. destruct Hd as [H _]. revert H. unfold Qle. cbn. lia.
  - reflexivity.
Qed.

(** C6.  For every form whose five required fields are non-empty
    strings and whose duration is a number in [[1, 10]], and every user
    the auth lookup returns with a non-empty id, the handler sends
    exactly one request: a POST to [/api/create-trip] with content type
    [application/json], whose body is the JSON object with exactly the
    keys [country], [numberOfDays], [travelStyle], [interests], [budget],
    [groupType], [userId], where [numberOfDays] is the form's duration,
    [interests] its [interest], [userId] the user's id, and the other
    keys the like-named fields. *)
Theorem valid_submission_posts_the_form
  (w : World) (c : Component) (user : User)
  (co ts it bu gt uid : js_string) (d : number) :
  formData c = {| country := VString co; travelStyle := VString ts;
                  interest := VString it; budget := VString bu;
                  duration := VNumber d; groupType := VString gt |} ->
  co <> [] -> ts <> [] -> it <> [] -> bu <> [] -> gt <> [] ->
  is_double d ->
  in_interval 1 10 d ->
  account_get w = Fulfilled user ->
  dollar_id user = VString uid ->
  uid <> [] ->
  fetches (effects (snd (submit StringToNumber w c)))
  = [(create_trip_url,
      {| method := lit "POST";
         headers := [(lit "Content-Type", lit "application/json")];
         body := expected_body co ts it bu gt d uid |})].
Proof.
  intros Hfd Hco Hts Hit Hbu Hgt Hdbl Hd Ha Hu Huid.
  assert (Hm : missing_required_field (formData c) = false).
  { apply filled_fields_are_not_missing. rewrite Hfd.
    repeat split; eexists; (split; [reflexivity | assumption]). }
  assert (Ho : duration_out_of_bounds StringToNumber (formData c) = false).
  { apply (@duration_bounds_spec (formData c) d); [rewrite Hfd; reflexivity | | ];
      auto. }
  assert (Ht : falsy (dollar_id user) = false).
  { apply falsy_nonempty_string. exists uid. split; assumption. }
  pose proof (fun u => @create_trip_request_of_valid_form
                         (formData c) u co ts it bu gt uid d Hfd Hd) as Hreq.
  along_paths; try off_path.
  all: assert (user0 = user) by congruence; subst user0.
  all: try (exfalso; congruence).
  all: cbn [snd outcome effects fetches]; rewrite (Hreq user Hu); reflexivity.
Qed.

(** With the same form but a NaN duration, which the validation lets
    through, the body carries [null] under [numberOfDays]. *)
Lemma NaN_duration_is_posted_as_null
  (fd : TripFormData) (user : User) :
  duration fd = VNumber js_NaN ->
  exists before after,
    body (create_trip_request fd user)
    = JObj (before ++ (lit "numberOfDays", JNull) :: after).
Proof.
  intros Hd. unfold create_trip_request, JSON_stringify. cbn [body].
  rewrite Hd. cbn [stringify_members].
  destruct (json_of_value (country fd)) as [j |].
  - exists [(lit "country", j)]. eexists. reflexivity.
  - exists []. eexists. reflexivity.
Qed.

(** ** The response *)

(** C4.  If the run's create-trip POST was sent and fulfilled and its
    body parsed to a JSON value with a non-empty [id], the handler
    navigates exactly once, to [/admin/trip-detail/] followed by that id;
    and whenever the handler navigates at all, it is in that situation
    and to that path. *)
Theorem navigation_exactly_when_the_response_has_an_id
  (w : World) (c : Component) :
  (forall r i,
      post_parsed w (snd (submit StringToNumber w c)) r ->
      has_id r i ->
      navigations (effects (snd (submit StringToNumber w c)))
      = [trip_detail_path i]) /\
  (forall p,
      In p (navigations (effects (snd (submit StringToNumber w c)))) ->
      exists r i,
        post_parsed w (snd (submit StringToNumber w c)) r /\
        has_id r i /\
        p = trip_detail_path i).
Proof.
  unfold post_parsed.
  along_paths; cbn [snd outcome effects fetches navigations In]; split.
  all: try (intros p []; fail).
  all: try (intros r i0 (init & resp0 & Hf & _); discriminate Hf).
  all: try (intros r i0 (init & resp0 & Hf & Hr & Hj) Hid;
            injection Hf as <-; exfalso;
            apply truthy_id_spec in Hid; congruence).
  - intros r i0 (init & resp0 & Hf & Hr & Hj) Hid.
    injection Hf as <-. apply truthy_id_spec in Hid.
    assert (resp0 = resp) by congruence. subst resp0.
    assert (r = result) by congruence. subst r.
    assert (i0 = i) by congruence. subst i0. reflexivity.
  - intros p [<- | []]. exists result, i. split; [| split].
    + exists (create_trip_request (formData c) user), resp. auto.
    + apply truthy_id_spec. assumption.
    + reflexivity.
Qed.

(** C5.  If the run's create-trip POST was sent and fulfilled and its
    body parsed to [null], to an object without [id], or to one with an
    empty [id], the handler completes normally having logged "Failed to
    generate itinerary" and nothing else to the console; it does not
    navigate, sets no error message, and leaves [loading] at [false]. *)
Theorem response_without_id_is_only_logged
  (w : World) (c : Component) (r : option CreateTripResponse) :
  post_parsed w (snd (submit StringToNumber w c)) r ->
  lacks_id r ->
  fst (submit StringToNumber w c) = Normal tt /\
  console_errors (effects (snd (submit StringToNumber w c))) = [[LStr msg_failed]] /\
  navigations (effects (snd (submit StringToNumber w c))) = [] /\
  error_messages (effects (snd (submit StringToNumber w c))) = [] /\
  error (component (snd (submit StringToNumber w c))) = error c /\
  loading (component (snd (submit StringToNumber w c))) = false.
Proof.
  unfold post_parsed. intros Hp Hl. revert Hp.
  apply truthy_id_none in Hl.
  along_paths; cbn [snd outcome effects fetches];
    intros (init & resp0 & Hf & Hr & Hj).
  all: try discriminate Hf.
  all: injection Hf as <-.
  all: try (exfalso; congruence).
  repeat split.
Qed.

End Submission.

(* ================================================================== *)
(** * The statements at sample inputs *)
(* ================================================================== *)

Lemma sample_form_filled (d : value) : required_fields_filled (sample_form d).
Proof.
  repeat split; eexists; (split; [reflexivity | discriminate]).
Defined.

Lemma submit_with_an_empty_required_field_is_rejected_witness :
  some_required_field_empty (formData sample_empty_interest) /\
  error (component (snd (submit no_StringToNumber world_signed_out sample_empty_interest)))
  = Some msg_all_fields /\
  network_calls (effects (snd (submit no_StringToNumber world_signed_out sample_empty_interest)))
  = [].
Proof.
  assert (H : some_required_field_empty (formData sample_empty_interest))
    by (right; right; left; reflexivity).
  split; [exact H |].
  destruct (submit_with_an_empty_required_field_is_rejected
              no_StringToNumber world_signed_out sample_empty_interest H)
    as (_ & He & _ & Hn & _).
  split; [exact He | exact Hn].
Defined.

Lemma user_without_id_aborts_the_submission_witness :
  passes_validation no_StringToNumber (formData sample_valid) = true /\
  account_get world_anonymous = Fulfilled {| dollar_id := VUndefined |} /\
  falsy VUndefined = true /\
  console_errors (effects (snd (submit no_StringToNumber world_anonymous sample_valid)))
  = [[LStr msg_not_authenticated]] /\
  fetches (effects (snd (submit no_StringToNumber world_anonymous sample_valid))) = [].
Proof.
  split; [reflexivity |]. split; [reflexivity |]. split; [reflexivity |].
  destruct (@user_without_id_aborts_the_submission
              no_StringToNumber world_anonymous sample_valid
              {| dollar_id := VUndefined |} eq_refl eq_refl eq_refl)
    as (_ & Hc & _ & _ & Hf & _).
  split; [exact Hc | exact Hf].
Defined.

Lemma rejected_auth_lookup_is_not_logged_witness :
  passes_validation no_StringToNumber (formData sample_valid) = true /\
  account_get world_signed_out = Rejected (Thrown (lit "401")) /\
  fst (submit no_StringToNumber world_signed_out sample_valid)
  = Throw (Thrown (lit "401")) /\
  console_errors (effects (snd (submit no_StringToNumber world_signed_out sample_valid)))
  = [].
Proof.
  split; [reflexivity |]. split; [reflexivity |].
  destruct (@rejected_auth_lookup_is_not_logged
              no_StringToNumber world_signed_out sample_valid
              (Thrown (lit "401")) eq_refl eq_refl)
    as (Ht & Hc & _).
  split; [exact Ht | exact Hc].
Defined.

Lemma rejected_auth_lookup_leaves_loading_set_witness :
  passes_validation no_StringToNumber (formData sample_valid) = true /\
  account_get world_signed_out = Rejected (Thrown (lit "401")) /\
  loading (component (snd (submit no_StringToNumber world_signed_out sample_valid)))
  = true.
Proof.
  split; [reflexivity |]. split; [reflexivity |].
  destruct (@rejected_auth_lookup_leaves_loading_set
              no_StringToNumber world_signed_out sample_valid
              (Thrown (lit "401")) eq_refl eq_refl)
    as (Hl & _).
  exact Hl.
Defined.

Lemma sample_post_parsed (r : option CreateTripResponse) :
  post_parsed (world_answering r)
    (snd (submit no_StringToNumber (world_answering r) sample_valid)) r.
Proof.
  exists (create_trip_request (formData sample_valid) sample_user).
  exists {| ok := true; json_promise := Fulfilled r |}.
  split; [| split; reflexivity].
  destruct r as [[[[| a i] |]] |]; reflexivity.
Defined.

Lemma navigation_exactly_when_the_response_has_an_id_witness :
  post_parsed (world_answering (Some {| id := Some (lit "t1") |}))
    (snd (submit no_StringToNumber
            (world_answering (Some {| id := Some (lit "t1") |})) sample_valid))
    (Some {| id := Some (lit "t1") |}) /\
  has_id (Some {| id := Some (lit "t1") |}) (lit "t1") /\
  navigations
    (effects (snd (submit no_StringToNumber
                     (world_answering (Some {| id := Some (lit "t1") |}))
                     sample_valid)))
  = [trip_detail_path (lit "t1")].
Proof.
  assert (Hid : has_id (Some {| id := Some (lit "t1") |}) (lit "t1"))
    by (split; [reflexivity | discriminate]).
  split; [apply sample_post_parsed |]. split; [exact Hid |].
  exact (proj1 (navigation_exactly_when_the_response_has_an_id
                  no_StringToNumber
                  (world_answering (Some {| id := Some (lit "t1") |}))
                  sample_valid)
               _ _ (sample_post_parsed _) Hid).
Defined.

Lemma response_without_id_is_only_logged_witness :
  post_parsed (world_answering (Some {| id := None |}))
    (snd (submit no_StringToNumber
            (world_answering (Some {| id := None |})) sample_valid))
    (Some {| id := None |}) /\
  lacks_id (Some {| id := None |}) /\
  console_errors
    (effects (snd (submit no_StringToNumber
                     (world_answering (Some {| id := None |})) sample_valid)))
  = [[LStr msg_failed]] /\
  navigations
    (effects (snd (submit no_StringToNumber
                     (world_answering (Some {| id := None |})) sample_valid)))
  = [].
Proof.
  assert (Hl : lacks_id (Some {| id := None |})) by (right; left; reflexivity).
  split; [apply sample_post_parsed |]. split; [exact Hl |].
  destruct (@response_without_id_is_only_logged
              no_StringToNumber (world_answering (Some {| id := None |}))
              sample_valid _ (sample_post_parsed _) Hl)
    as (_ & Hc & Hn & _).
  split; [exact Hc | exact Hn].
Defined.

Lemma num_3_is_double : is_double num_3.
Proof. reflexivity. Defined.

Lemma num_3_in_range : in_interval 1 10 num_3.
Proof. split; vm_compute; discriminate. Defined.

Lemma valid_submission_posts_the_form_witness :
  is_double num_3 /\
  in_interval 1 10 num_3 /\
  account_get (world_answering None) = Fulfilled sample_user /\
  fetches (effects (snd (submit no_StringToNumber (world_answering None) sample_valid)))
  = [(create_trip_url,
      {| method := lit "POST";
         headers := [(lit "Content-Type", lit "application/json")];
         body := expected_body (lit "Peru") (lit "Luxury") (lit "Food")
                   (lit "Premium") (lit "Solo") num_3 (lit "u1") |})].
Proof.
  split; [exact num_3_is_double |]. split; [exact num_3_in_range |].
  split; [reflexivity |].
  apply (@valid_submission_posts_the_form
           no_StringToNumber (world_answering None) sample_valid sample_user
           (lit "Peru") (lit "Luxury") (lit "Food") (lit "Premium") (lit "Solo")
           (lit "u1") num_3).
  - reflexivity.
  - discriminate.
  - discriminate.
  - discriminate.
  - discriminate.
  - discriminate.
  - exact num_3_is_double.
  - exact num_3_in_range.
  - reflexivity.
  - reflexivity.
  - discriminate.
Defined.

Lemma submit_with_a_number_out_of_range_is_rejected_witness :
  is_double num_11 /\
  num_11 <> js_NaN /\
  ~ in_interval 1 10 num_11 /\
  error (component (snd (submit no_StringToNumber (world_answering None) sample_too_long)))
  = Some msg_duration /\
  network_calls
    (effects (snd (submit no_StringToNumber (world_answering None) sample_too_long)))
  = [].
Proof.
  assert (Hd : is_double num_11) by reflexivity.
  assert (Hn : num_11 <> js_NaN) by discriminate.
  assert (Ho : ~ in_interval 1 10 num_11).
  { intros [_ H]. vm_compute in H. apply H. reflexivity. }
  split; [exact Hd |]. split; [exact Hn |]. split; [exact Ho |].
  destruct (@submit_with_a_number_out_of_range_is_rejected
              no_StringToNumber (world_answering None) sample_too_long num_11
              (sample_form_filled _) eq_refl Hd Hn Ho)
    as (_ & He & _ & Hc & _).
  split; [exact He | exact Hc].
Defined.

Lemma caught_failure_is_logged_witness :
  passes_validation no_StringToNumber (formData sample_valid) = true /\
  fetch world_offline create_trip_url
    (create_trip_request (formData sample_valid) sample_user)
  = Rejected (Thrown (lit "Failed to fetch")) /\
  console_errors (effects (snd (submit no_StringToNumber world_offline sample_valid)))
  = [[LStr msg_error_generating; LErr (Thrown (lit "Failed to fetch"))]] /\
  loading (component (snd (submit no_StringToNumber world_offline sample_valid)))
  = false.
Proof.
  split; [reflexivity |]. split; [reflexivity |].
  destruct (@caught_failure_is_logged
              no_StringToNumber world_offline sample_valid sample_user
              (Thrown (lit "Failed to fetch")) eq_refl eq_refl eq_refl
              (or_introl eq_refl))
    as (_ & Hc & _ & _ & Hl).
  split; [exact Hc | exact Hl].
Defined.

Lemma loading_is_reset_unless_the_auth_lookup_rejects_witness :
  (passes_validation no_StringToNumber (formData sample_valid) = true ->
   exists user, account_get world_offline = Fulfilled user) /\
  loading_writes (effects (snd (submit no_StringToNumber world_offline sample_valid)))
  = [true; false].
Proof.
  assert (H : passes_validation no_StringToNumber (formData sample_valid) = true ->
              exists user, account_get world_offline = Fulfilled user)
    by (intros _; exists sample_user; reflexivity).
  split; [exact H |].
  destruct (@loading_is_reset_unless_the_auth_lookup_rejects
              no_StringToNumber world_offline sample_valid H)
    as (_ & _ & Hw).
  exact Hw.
Defined.

(* ================================================================== *)
(** * Runs on sample inputs *)
(* ================================================================== *)

Example num_1_value : in_interval 1 1 num_1.
Proof. split; vm_compute; discriminate. Qed.

Example num_10_value : in_interval 10 10 num_10.
Proof. split; vm_compute; discriminate. Qed.

Example NaN_is_neither_below_1_nor_above_10 :
  num_lt js_NaN num_1 = false /\ num_gt js_NaN num_10 = false.
Proof. split; reflexivity. Qed.

Example Infinity_is_above_10 : num_gt js_Infinity num_10 = true.
Proof. reflexivity. Qed.

Example zero_days_is_rejected :
  error (component (snd (submit no_StringToNumber (world_answering None)
                           (sample_component (VNumber num_0)))))
  = Some msg_duration.
Proof. reflexivity. Qed.

Example successful_run :
  submit no_StringToNumber (world_answering (Some {| id := Some (lit "t1") |}))
    sample_valid
  = (Normal tt,
     outcome sample_valid false None
       [PreventDefault; SetLoading true; AccountGet;
        Fetch create_trip_url (create_trip_request (formData sample_valid) sample_user);
        Navigate (lit "/admin/trip-detail/t1"); SetLoading false]).
Proof. reflexivity. Qed.

Example signed_out_run :
  submit no_StringToNumber world_signed_out sample_valid
  = (Throw (Thrown (lit "401")),
     outcome sample_valid true None [PreventDefault; SetLoading true; AccountGet]).
Proof. reflexivity. Qed.

Example NaN_run_reaches_the_endpoint :
  fetches (effects (snd (submit no_StringToNumber (world_answering None) sample_NaN)))
  = [(create_trip_url,
      {| method := lit "POST";
         headers := [(lit "Content-Type", lit "application/json")];
         body := JObj [ (lit "country", JStr (lit "Peru"));
                        (lit "numberOfDays", JNull);
                        (lit "travelStyle", JStr (lit "Luxury"));
                        (lit "interests", JStr (lit "Food"));
                        (lit "budget", JStr (lit "Premium"));
                        (lit "groupType", JStr (lit "Solo"));
                        (lit "userId", JStr (lit "u1")) ] |})].
Proof. reflexivity. Qed.

Example filtering_sample :
  filtering ascii_toLowerCase sample_countries (Some (lit "sT"))
  = [ {| Item.text := lit "United States"; Item.value := lit "United States" |};
      {| Item.text := lit "Estonia"; Item.value := lit "Estonia" |} ].
Proof. reflexivity. Qed.

Example filtering_without_text_keeps_all :
  filtering ascii_toLowerCase sample_countries None = map item_of sample_countries.
Proof. reflexivity. Qed.

(* ================================================================== *)
(** * The submit handler on every path *)
(* ================================================================== *)

(** Splits a goal about a run of the handler into its paths. *)
Ltac by_paths :=
  match goal with
  | |- context [submit ?s0 ?w0 ?c0] =>
      let r := fresh "r" in
      let P := fresh "P" in
      generalize (handleSubmit_path s0 w0 c0);
      generalize (submit s0 w0 c0);
      intros r P; destruct P
  end.

(** Turns "validation passes" into its two halves. *)
Ltac split_validation :=
  repeat match goal with
  | H : passes_validation _ _ = true |- _ =>
      apply passes_validation_spec in H; destruct H
  end.

Section EveryPath.

Variable StringToNumber : js_string -> number.

(** A create-trip request is never sent on the quiet.  If a run of the
    handler contains a [fetch] at all, then validation had passed, the
    auth lookup had been made before it and had returned a user with a
    truthy [$id], the request is the POST to [/api/create-trip] built
    from the unchanged form and that user, and it is the only one. *)
Theorem post_only_after_validation_and_auth
  (w : World) (c : Component) (url : js_string) (init : RequestInit) :
  In (Fetch url init) (effects (snd (submit StringToNumber w c))) ->
  passes_validation StringToNumber (formData c) = true /\
  exists user rest,
    account_get w = Fulfilled user /\
    falsy (dollar_id user) = false /\
    url = create_trip_url /\
    init = create_trip_request (formData c) user /\
    effects (snd (submit StringToNumber w c))
    = [PreventDefault; SetLoading true; AccountGet; Fetch url init] ++ rest /\
    fetches (effects (snd (submit StringToNumber w c))) = [(url, init)].
Proof.
  by_paths; cbn [snd outcome effects In]; intros Hin.
  all: repeat (destruct Hin as [Hin | Hin]; try discriminate Hin);
       try contradiction.
  all: injection Hin as <- <-.
  all: split; [assumption |].
  all: exists user; eexists; repeat split; try eassumption; reflexivity.
Qed.

(** Whatever happens, the handler first prevents the browser's own
    submission and raises [loading], and it never writes the form
    data. *)
Theorem submit_begins_alike_and_keeps_the_form
  (w : World) (c : Component) :
  formData (component (snd (submit StringToNumber w c))) = formData c /\
  exists rest,
    effects (snd (submit StringToNumber w c))
    = PreventDefault :: SetLoading true :: rest.
Proof.
  by_paths; (split; [reflexivity | eexists; reflexivity]).
Qed.

(** The message on show after a run.  A failed validation puts its
    message there; on every other path the handler leaves what was
    shown before, so a message from an earlier attempt stays on show
    even when this submission succeeds. *)
Theorem error_shown_after_submit
  (w : World) (c : Component) :
  error_shown (component (snd (submit StringToNumber w c)))
  = if missing_required_field (formData c) then Some msg_all_fields
    else if duration_out_of_bounds StringToNumber (formData c) then Some msg_duration
    else error_shown c.
Proof.
  by_paths; split_validation;
    repeat match goal with
    | H : missing_required_field _ = _ |- _ => rewrite H
    | H : duration_out_of_bounds _ _ = _ |- _ => rewrite H
    end; reflexivity.
Qed.

(** The handler never looks at the status of the response: with the
    [ok] flag of every response forced to either value, the run is the
    same, effect for effect. *)
Theorem submit_ignores_the_response_status
  (b : bool) (w : World) (c : Component) :
  submit StringToNumber (with_ok b w) c = submit StringToNumber w c.
Proof.
  destruct c as [fd ld err], w as [auth net].
  unfold with_ok. run_handler.
  destruct (missing_required_field fd); [reflexivity |].
  destruct (duration_out_of_bounds StringToNumber fd); [reflexivity |].
  destruct auth as [user | e]; [| reflexivity].
  destruct (falsy (dollar_id user)); [reflexivity |].
  destruct (net create_trip_url (create_trip_request fd user)) as [resp | e];
    [| reflexivity].
  cbn [json_promise].
  destruct (json_promise resp) as [result | e]; [| reflexivity].
  destruct (truthy_id result); reflexivity.
Qed.

(** What the two validation checks accept, for a form whose fields
    have their declared types: exactly the forms whose five strings are
    all non-empty and whose duration has a value in [[1, 10]], whole or
    fractional, or is NaN. *)
Theorem validation_of_a_typed_form
  (co ts it bu gt : js_string) (d : number) :
  is_double d ->
  passes_validation StringToNumber (typed_form co ts it bu gt d) = true <->
  (co <> [] /\ ts <> [] /\ it <> [] /\ bu <> [] /\ gt <> []) /\
  (in_interval 1 10 d \/ d = js_NaN).
Proof.
  intros Hd. rewrite passes_validation_spec.
  rewrite (@duration_bounds_spec StringToNumber (typed_form co ts it bu gt d) d
             eq_refl Hd).
  assert (Hm : missing_required_field (typed_form co ts it bu gt d) = false <->
               co <> [] /\ ts <> [] /\ it <> [] /\ bu <> [] /\ gt <> []).
  { unfold missing_required_field, typed_form.
    cbn [country travelStyle interest budget groupType].
    destruct co, ts, it, bu, gt; cbn; split; intros H;
      try discriminate H; try reflexivity;
      try (repeat split; discriminate);
      try (destruct H as (H1 & H2 & H3 & H4 & H5); congruence). }
  rewrite Hm. reflexivity.
Qed.

(** Submitting the form as first rendered, before any control was
    touched, is always rejected with the all-fields message and without
    a network call, whatever countries were loaded. *)
Theorem untouched_form_is_rejected
  (w : World) (countries : list Country.t) :
  fst (submit StringToNumber w (initial_component countries)) = Normal tt /\
  error_shown (component (snd (submit StringToNumber w (initial_component countries))))
  = Some msg_all_fields /\
  network_calls (effects (snd (submit StringToNumber w (initial_component countries))))
  = [] /\
  loading (component (snd (submit StringToNumber w (initial_component countries))))
  = false.
Proof.
  assert (Hm : missing_required_field (formData (initial_component countries)) = true).
  { apply empty_field_is_missing. right. left. reflexivity. }
  by_paths; split_validation; try congruence.
  repeat split.
Qed.

(** Each run reports once, and in one way only.  A run that
    completes normally has done exactly one of three things: set an
    error message, navigated, or written to the console; it never does
    two of them, nor one of them twice.  A run that ends in a rejection
    has reported nothing. *)
Theorem submit_reports_exactly_once
  (w : World) (c : Component) :
  (List.length (error_messages (effects (snd (submit StringToNumber w c))))
   + List.length (navigations (effects (snd (submit StringToNumber w c))))
   + List.length (console_errors (effects (snd (submit StringToNumber w c))))
   = match fst (submit StringToNumber w c) with
     | Normal _ => 1
     | Throw _ => 0
     end)%nat.
Proof.
  by_paths; reflexivity.
Qed.

End EveryPath.

(* ================================================================== *)
(** * More on the filters *)
(* ================================================================== *)

Lemma substring_of_trans (a b c : js_string) :
  substring_of a b -> substring_of b c -> substring_of a c.
Proof.
  intros (p1 & s1 & ->) (p2 & s2 & ->).
  exists (p2 ++ p1), (s1 ++ s2). rewrite <- !app_assoc. reflexivity.
Qed.

Lemma filter_all {A : Type} (p : A -> bool) (l : list A) :
  (forall x, p x = true) -> filter p l = l.
Proof.
  intros Hp. induction l as [| x l IH]; cbn [filter].
  - reflexivity.
  - rewrite Hp, IH. reflexivity.
Qed.

Lemma filter_refines {A : Type} (p1 p2 : A -> bool) (l : list A) :
  (forall x, p2 x = true -> p1 x = true) ->
  filter p2 (filter p1 l) = filter p2 l.
Proof.
  intros Himp. induction l as [| x l IH]; cbn [filter].
  - reflexivity.
  - destruct (p1 x) eqn:E1; cbn [filter].
    + rewrite IH. reflexivity.
    + destruct (p2 x) eqn:E2.
      * apply Himp in E2. congruence.
      * exact IH.
Qed.

Lemma includes_empty (s : js_string) : includes s [] = true.
Proof. apply includes_spec. exists [], s. reflexivity. Qed.

Section Filters.

Variable toLowerCase : js_string -> js_string.

(** The [filtering] callback of a [selectItems] combo box hands
    [updateData] the items kept by selecting, in order, exactly those
    whose lower-cased text contains the lower-cased query; each entry
    has the item both as [text] and as [value]. *)
Theorem select_filtering_keeps_exactly_the_matching_items
  (items : list js_string) (text : option js_string) :
  let matches item :=
    substring_of (toLowerCase (query_of text)) (toLowerCase item) in
  exists kept,
    selects matches items kept /\
    (forall item, In item kept <-> In item items /\ matches item) /\
    select_filtering toLowerCase items text
    = map (fun item => {| Item.text := item; Item.value := item |}) kept.
Proof.
  intros matches.
  exists (filter (fun item => includes (toLowerCase item)
                                       (toLowerCase (query_of text))) items).
  assert (Hsel : selects matches items
            (filter (fun item => includes (toLowerCase item)
                                          (toLowerCase (query_of text))) items)).
  { apply selects_filter. intros item. apply includes_spec. }
  split; [exact Hsel |]. split; [apply selects_In; exact Hsel | reflexivity].
Qed.

(** Typing on narrows the list: when the lower-cased earlier query
    occurs in the lower-cased later one, the countries offered for the
    later query are those selected by it among the countries offered
    for the earlier one, so none comes back that had been filtered
    out. *)
Theorem filtering_a_longer_query_narrows
  (countries : list Country.t) (earlier later : option js_string) :
  substring_of (toLowerCase (query_of earlier)) (toLowerCase (query_of later)) ->
  exists kept_earlier kept_later,
    filtering toLowerCase countries earlier = map item_of kept_earlier /\
    filtering toLowerCase countries later = map item_of kept_later /\
    selects
      (fun c => substring_of (toLowerCase (query_of later))
                             (toLowerCase (Country.name c)))
      kept_earlier kept_later /\
    (forall c, In c kept_later -> In c kept_earlier).
Proof.
  intros Hsub.
  set (p1 := fun c => includes (toLowerCase (Country.name c))
                               (toLowerCase (query_of earlier))).
  set (p2 := fun c => includes (toLowerCase (Country.name c))
                               (toLowerCase (query_of later))).
  assert (Himp : forall c, p2 c = true -> p1 c = true).
  { intros c H. apply includes_spec. apply includes_spec in H.
    eapply substring_of_trans; eassumption. }
  assert (Hsel : selects
            (fun c => substring_of (toLowerCase (query_of later))
                                   (toLowerCase (Country.name c)))
            (filter p1 countries) (filter p2 countries)).
  { rewrite <- (filter_refines p1 p2 countries Himp).
    apply selects_filter. intros c. apply includes_spec. }
  exists (filter p1 countries), (filter p2 countries).
  split; [reflexivity |]. split; [reflexivity |]. split; [exact Hsel |].
  intros c Hc. apply (selects_In Hsel) in Hc. tauto.
Qed.

(** With no text, or the empty text, nothing is filtered out: the
    callback hands back the whole data source (given that lower-casing
    the empty string gives the empty string). *)
Theorem filtering_an_empty_query_keeps_everything
  (countries : list Country.t) :
  toLowerCase [] = [] ->
  filtering toLowerCase countries None = countryData countries /\
  filtering toLowerCase countries (Some []) = countryData countries.
Proof.
  intros Hl. unfold filtering, countryData, query_of.
  change (lit "") with (@nil code_unit). rewrite Hl.
  rewrite filter_all by (intros c; apply includes_empty).
  split; reflexivity.
Qed.

End Filters.

(* ================================================================== *)
(** * The controls *)
(* ================================================================== *)

Section ControlEvents.

Variable StringToNumber : js_string -> number.

(** One event, on any machine: it completes normally, touches nothing
    but the form data, and writes at most one field. *)
Lemma on_event_spec (ev : control_event) (m : Machine) :
  exists fd',
    on_event StringToNumber ev m
    = (Normal tt,
       {| component := {| formData := fd';
                          loading := loading (component m);
                          error := error (component m) |};
          effects := effects m |}) /\
    (forall k, k <> k_duration ->
       falsy (get (formData (component m)) k) = false ->
       falsy (get fd' k) = false).
Proof.
  destruct m as [[fd ld err] effs].
  destruct ev as [[[| u s] |] | raw | key [[| u s] |]];
    cbn [on_event country_change select_change duration_change handleChange
         setFormData update ret component effects formData loading error].
  all: eexists; split; [reflexivity |].
  all: intros k Hk Hf; try exact Hf.
  all: rewrite get_spread_with.
  - destruct (key_eqb k k_country); [reflexivity | exact Hf].
  - destruct (key_eqb k k_duration) eqn:E; [| exact Hf].
    apply key_eqb_eq in E. contradiction.
  - destruct (key_eqb k key); [reflexivity | exact Hf].
Qed.

Lemma on_events_spec (evs : list control_event) (m : Machine) :
  exists fd',
    on_events StringToNumber evs m
    = (Normal tt,
       {| component := {| formData := fd';
                          loading := loading (component m);
                          error := error (component m) |};
          effects := effects m |}) /\
    (forall k, k <> k_duration ->
       falsy (get (formData (component m)) k) = false ->
       falsy (get fd' k) = false).
Proof.
  revert m. induction evs as [| ev evs IH]; intros m.
  - exists (formData (component m)). split; [| auto].
    destruct m as [[fd ld err] effs]. reflexivity.
  - cbn [on_events]. unfold bind.
    destruct (on_event_spec ev m) as (fd1 & -> & H1).
    destruct (IH {| component := {| formData := fd1;
                                    loading := loading (component m);
                                    error := error (component m) |};
                    effects := effects m |}) as (fd2 & E2 & H2).
    exists fd2. split; [exact E2 |].
    intros k Hk Hf. apply H2; [exact Hk |]. apply H1; assumption.
Qed.

(** The controls only ever edit the form: whatever the user does with
    them, in whatever order, every callback completes normally, no
    effect is performed (no network call, no navigation, no log), and
    [loading] and [error] stay as they were. *)
Theorem control_events_only_edit_the_form
  (evs : list control_event) (c : Component) :
  fst (on_events StringToNumber evs (start c)) = Normal tt /\
  effects (snd (on_events StringToNumber evs (start c))) = [] /\
  loading (after_events StringToNumber evs c) = loading c /\
  error (after_events StringToNumber evs c) = error c.
Proof.
  unfold after_events.
  destruct (on_events_spec evs (start c)) as (fd' & -> & _).
  repeat split.
Qed.

(** No control can empty a required field: a required field that holds
    something truthy still does after any sequence of control events,
    and so a form that has passed the required-fields check keeps
    passing it. *)
Theorem control_events_keep_required_fields_filled
  (evs : list control_event) (c : Component) :
  (forall k, k <> k_duration ->
     falsy (get (formData c) k) = false ->
     falsy (get (formData (after_events StringToNumber evs c)) k) = false) /\
  (missing_required_field (formData c) = false ->
   missing_required_field (formData (after_events StringToNumber evs c)) = false).
Proof.
  unfold after_events.
  destruct (on_events_spec evs (start c)) as (fd' & -> & H).
  cbn [snd component formData start] in *.
  split; [exact H |].
  unfold missing_required_field. rewrite !orb_false_iff.
  intros ((((H1 & H2) & H3) & H4) & H5).
  repeat split.
  - apply (H k_country); [discriminate | exact H1].
  - apply (H k_travelStyle); [discriminate | exact H2].
  - apply (H k_interest); [discriminate | exact H3].
  - apply (H k_budget); [discriminate | exact H4].
  - apply (H k_groupType); [discriminate | exact H5].
Qed.

End ControlEvents.

(* ================================================================== *)
(** * The map preview *)
(* ================================================================== *)

Lemma string_eqb_eq (a b : js_string) : string_eqb a b = true <-> a = b.
Proof.
  revert b. induction a as [| x a IH]; intros [| y b]; cbn [string_eqb].
  - tauto.
  - split; discriminate.
  - split; discriminate.
  - rewrite andb_true_iff, N.eqb_eq, IH. split.
    + intros [-> ->]. reflexivity.
    + intros H. injection H as -> ->. tauto.
Qed.

Lemma strict_equals_spec (s : js_string) (v : value) :
  strict_equals s v = true <-> v = VString s.
Proof.
  destruct v as [| t | n]; cbn [strict_equals].
  - split; discriminate.
  - rewrite string_eqb_eq. split.
    + intros ->. reflexivity.
    + intros H. injection H as ->. reflexivity.
  - split; discriminate.
Qed.

Lemma find_first {A : Type} (p : A -> bool) (l : list A) :
  match find p l with
  | Some x =>
      exists before after,
        l = before ++ x :: after /\ p x = true /\
        forall y, In y before -> p y = false
  | None => forall y, In y l -> p y = false
  end.
Proof.
  induction l as [| a l IH]; cbn [find].
  - intros y [].
  - destruct (p a) eqn:E.
    + exists [], l. split; [reflexivity |]. split; [exact E |]. intros y [].
    + destruct (find p l) as [x |].
      * destruct IH as (before & after & -> & Hx & Hb).
        exists (a :: before), after. split; [reflexivity |]. split; [exact Hx |].
        intros y [<- | Hy]; [exact E | now apply Hb].
      * intros y [<- | Hy]; [exact E | now apply IH].
Qed.

Lemma selectedCountry_spec (countries : list Country.t) (fd : TripFormData) :
  match selectedCountry countries fd with
  | Some c => exists s, country fd = VString s /\ first_with_value countries s c
  | None => forall x, In x countries -> country fd <> VString (Country.value x)
  end.
Proof.
  unfold selectedCountry, first_with_value.
  pose proof (find_first (fun c => strict_equals (Country.value c) (country fd))
                         countries) as H.
  destruct (find _ countries) as [c |].
  - destruct H as (before & after & -> & Hc & Hb).
    apply strict_equals_spec in Hc.
    exists (Country.value c). split; [exact Hc |].
    exists before, after. split; [reflexivity |]. split; [reflexivity |].
    intros x Hx E. specialize (Hb x Hx).
    assert (strict_equals (Country.value x) (country fd) = true)
      by (apply strict_equals_spec; congruence).
    congruence.
  - intros x Hx E. specialize (H x Hx).
    assert (strict_equals (Country.value x) (country fd) = true)
      by (apply strict_equals_spec; exact E).
    congruence.
Qed.

(** The map layer always gets one entry, for the form's country and in
    the highlight colour.  Its coordinates are those of the first
    country of the list whose value is the form's country, and the empty
    array exactly when no country of the list has that value (as when
    the field holds a value that is not a string). *)
Theorem mapData_shows_the_first_matching_country
  (countries : list Country.t) (fd : TripFormData) :
  exists d,
    mapData countries fd = [d] /\
    MapDatum.country d = country fd /\
    MapDatum.color d = lit "#EA382E" /\
    ((exists s c,
        country fd = VString s /\
        first_with_value countries s c /\
        MapDatum.coordinates d
        = [fst (Country.coordinates c); snd (Country.coordinates c)]) \/
     ((forall x, In x countries -> country fd <> VString (Country.value x)) /\
      MapDatum.coordinates d = [])).
Proof.
  unfold mapData. eexists. split; [reflexivity |].
  cbn [MapDatum.country MapDatum.color MapDatum.coordinates].
  split; [reflexivity |]. split; [reflexivity |].
  pose proof (selectedCountry_spec countries fd) as H.
  destruct (selectedCountry countries fd) as [c |].
  - left. destruct H as (s & Hs & Hf). exists s, c. auto.
  - right. auto.
Qed.

Lemma selectedCountry_first
  (countries : list Country.t) (fd : TripFormData) (s : js_string) (c : Country.t) :
  country fd = VString s ->
  first_with_value countries s c ->
  selectedCountry countries fd = Some c.
Proof.
  intros Hfd (before & after & -> & Hv & Hb).
  unfold selectedCountry. rewrite Hfd.
  induction before as [| a before IH]; cbn [app find].
  - assert (E : strict_equals (Country.value c) (VString s) = true)
      by (apply strict_equals_spec; congruence).
    rewrite E. reflexivity.
  - destruct (strict_equals (Country.value a) (VString s)) eqn:E.
    + apply strict_equals_spec in E. injection E as E.
      exfalso. apply (Hb a (or_introl eq_refl)). congruence.
    + apply IH. intros x Hx. apply Hb. right. exact Hx.
Qed.

Section MapAfterChange.

Variable StringToNumber : js_string -> number.

(** Choosing a country in the combo box moves the map: after the
    [change] callback with the non-empty value [s], the map entry
    carries [s] and the coordinates of the first listed country whose
    value is [s]. *)
Theorem map_follows_the_country_choice
  (countries : list Country.t) (c : Component)
  (s : js_string) (chosen : Country.t) :
  s <> [] ->
  first_with_value countries s chosen ->
  mapData countries
    (formData (after_events StringToNumber [CountryChange (Some s)] c))
  = [ {| MapDatum.country := VString s;
         MapDatum.color := lit "#EA382E";
         MapDatum.coordinates :=
           [fst (Country.coordinates chosen); snd (Country.coordinates chosen)] |} ].
Proof.
  intros Hs Hfirst.
  destruct s as [| u s]; [contradiction |].
  destruct c as [fd ld err].
  unfold after_events, mapData.
  cbn [on_events on_event country_change handleChange setFormData update bind ret
       start snd component formData].
  rewrite (@selectedCountry_first countries
             (spread_with fd k_country (VString (u :: s))) (u :: s) chosen
             eq_refl Hfirst).
  reflexivity.
Qed.

End MapAfterChange.

(** On first render the map already points at the first loaded
    country: the form's country starts as that country's value, which
    the lookup finds at the head of the list; with no country loaded
    the entry has no coordinates. *)
Theorem map_starts_on_the_first_country (countries : list Country.t) :
  mapData countries (initial_formData countries)
  = [ {| MapDatum.country := VString (or_empty (first_value countries));
         MapDatum.color := lit "#EA382E";
         MapDatum.coordinates :=
           match countries with
           | c :: _ => [fst (Country.coordinates c); snd (Country.coordinates c)]
           | [] => []
           end |} ].
Proof.
  destruct countries as [| c rest]; [reflexivity |].
  unfold mapData, selectedCountry, initial_formData.
  cbn [country first_value find].
  assert (H : strict_equals (Country.value c)
                (VString (or_empty (Some (Country.value c)))) = true).
  { apply strict_equals_spec. destruct (Country.value c); reflexivity. }
  rewrite H. reflexivity.
Qed.

(* ================================================================== *)
(** * The loader *)
(* ================================================================== *)

Lemma own_property_some (members : list (js_string * parsed)) (k : js_string) :
  (exists v, own_property members k = Some v) <-> (exists v, In (k, v) members).
Proof.
  induction members as [| [k' v'] rest IH]; cbn [own_property In].
  - split; intros [v H]; [discriminate H | contradiction].
  - destruct (own_property rest k) as [later |] eqn:E.
    + split; intros _; [| eauto].
      destruct (proj1 IH (ex_intro _ later eq_refl)) as [v Hv]. eauto.
    + destruct (string_eqb k' k) eqn:Ek.
      * apply string_eqb_eq in Ek. subst k'. split; intros _; eauto.
      * split; intros [v H]; [discriminate H |].
        destruct H as [H | H].
        -- injection H as -> _.
           assert (string_eqb k k = true) by (apply string_eqb_eq; reflexivity).
           congruence.
        -- destruct (proj2 IH (ex_intro _ v H)) as [x Hx]. discriminate Hx.
Qed.

Lemma map_throwing_normal {A B : Type} (f : A -> completion B)
  (l : list A) (l' : list B) :
  map_throwing f l = Normal l' <-> Forall2 (fun x y => f x = Normal y) l l'.
Proof.
  revert l'. induction l as [| x l IH]; intros l'; cbn [map_throwing and_then].
  - split.
    + intros H. injection H as <-. constructor.
    + intros H. inversion H. reflexivity.
  - destruct (f x) as [y | e] eqn:Ex; cbn [and_then].
    + destruct (map_throwing f l) as [ys | e] eqn:El; cbn [and_then].
      * split.
        -- intros H. injection H as <-. constructor; [exact Ex | now apply IH].
        -- intros H. inversion H as [| x0 y0 l0 ys0 Hy Hys]; subst.
           apply IH in Hys. congruence.
      * split; [discriminate |].
        intros H. inversion H as [| x0 y0 l0 ys0 Hy Hys]; subst.
        apply IH in Hys. discriminate Hys.
    + split; [discriminate |].
      intros H. inversion H as [| x0 y0 l0 ys0 Hy Hys]; subst. congruence.
Qed.

Lemma map_throwing_throw {A B : Type} (f : A -> completion B)
  (l : list A) (e : thrown) :
  map_throwing f l = Throw e -> exists x, In x l /\ f x = Throw e.
Proof.
  induction l as [| x l IH]; cbn [map_throwing and_then]; [discriminate |].
  destruct (f x) as [y | e'] eqn:Ex; cbn [and_then].
  - destruct (map_throwing f l) as [ys | e'] eqn:El; cbn [and_then];
      [discriminate |].
    intros H. injection H as ->.
    destruct (IH eq_refl) as (x' & Hin & Hx'). exists x'. split; [now right | exact Hx'].
  - intros H. injection H as ->. exists x. split; [now left | exact Ex].
Qed.

Lemma map_throwing_throws_on {A B : Type} (f : A -> completion B)
  (l : list A) (x : A) (e : thrown) :
  In x l -> f x = Throw e -> exists e', map_throwing f l = Throw e'.
Proof.
  induction l as [| a l IH]; cbn [In map_throwing and_then]; [contradiction |].
  intros [-> | Hin] Hx.
  - rewrite Hx. cbn. eauto.
  - destruct (f a) as [y | e']; cbn [and_then]; [| eauto].
    destruct (IH Hin Hx) as [e' ->]. cbn. eauto.
Qed.

(** Induction on parsed values, with the items of an array in hand. *)
Lemma parsed_nested_ind (P : parsed -> Prop) :
  P PNull ->
  (forall b, P (PBool b)) ->
  (forall n, P (PNum n)) ->
  (forall s, P (PStr s)) ->
  (forall items, Forall P items -> P (PArr items)) ->
  (forall members, P (PObj members)) ->
  forall v, P v.
Proof.
  intros HNull HBool HNum HStr HArr HObj.
  fix IH 1. intros [| b | n | s | items | members].
  - exact HNull.
  - apply HBool.
  - apply HNum.
  - apply HStr.
  - apply HArr. induction items as [| x items IHitems]; constructor.
    + apply IH.
    + apply IHitems.
  - apply HObj.
Qed.

Section LoaderFacts.

Variable NumberToString : number -> js_string.

(** A template literal fails on exactly the unprintable values, and
    with a [TypeError]. *)
Lemma ToString_throws (v : parsed) (e : thrown) :
  ToString NumberToString v = Throw e <-> e = TypeError /\ unprintable v.
Proof.
  revert e. induction v as [| b | n | s | items IH | members]
    using parsed_nested_ind; intros e; cbn [ToString].
  - split; [discriminate | intros [_ H]; inversion H].
  - split; [discriminate | intros [_ H]; inversion H].
  - split; [discriminate | intros [_ H]; inversion H].
  - split; [discriminate | intros [_ H]; inversion H].
  - set (each := fix each (l : list parsed) : completion (list js_string) :=
          match l with
          | [] => Normal []
          | x :: l' =>
              match match x with PNull => Normal [] | _ => ToString NumberToString x end with
              | Throw e => Throw e
              | Normal part =>
                  match each l' with
                  | Throw e => Throw e
                  | Normal parts => Normal (part :: parts)
                  end
              end
          end).
    assert (Heach : forall e, each items = Throw e <->
                              e = TypeError /\ exists x, In x items /\ unprintable x).
    { clear e. induction items as [| x items IHitems]; intros e.
      - cbn. split; [discriminate | intros (_ & x & [] & _)].
      - inversion IH as [| x0 l0 Hx Hrest]; subst.
        specialize (IHitems Hrest).
        assert (F : forall e0,
                  match x with PNull => Normal [] | _ => ToString NumberToString x end
                  = Throw e0 <-> e0 = TypeError /\ unprintable x).
        { intros e0. destruct x; try apply Hx.
          split; [discriminate | intros [_ H]; inversion H]. }
        cbn [each In]. fold each.
        destruct (match x with PNull => Normal [] | _ => ToString NumberToString x end)
          as [part | e'] eqn:Ex.
        + destruct (each items) as [parts | e'] eqn:El.
          * split; [discriminate |].
            intros (-> & y & [<- | Hy] & Hu); exfalso.
            -- assert (H : Normal part = Throw TypeError)
                 by (apply (F TypeError); auto).
               discriminate H.
            -- assert (H : Normal parts = Throw TypeError)
                 by (apply (IHitems TypeError); eauto).
               discriminate H.
          * destruct (proj1 (IHitems e') eq_refl) as (-> & y & Hy & Hu).
            split.
            -- intros H. injection H as <-. split; [reflexivity | eauto].
            -- intros (-> & _). reflexivity.
        + destruct (proj1 (F e') eq_refl) as (-> & Hu).
          split.
          * intros H. injection H as <-. split; [reflexivity | eauto].
          * intros (-> & _). reflexivity. }
    destruct (each items) as [parts | e'] eqn:El.
    + split; [discriminate |].
      intros (-> & Hu). inversion Hu as [| items0 x Hin Hx]; subst.
      assert (H : Normal parts = Throw TypeError)
        by (apply (Heach TypeError); eauto).
      discriminate H.
    + destruct (proj1 (Heach e') eq_refl) as (-> & x & Hin & Hx).
      split.
      * intros H. injection H as <-.
        split; [reflexivity | econstructor; eassumption].
      * intros (-> & _). reflexivity.
  - destruct (own_property members (lit "toString")) as [t |] eqn:E.
    + split.
      * intros H. injection H as <-. split; [reflexivity |].
        constructor. apply own_property_some. eauto.
      * intros [-> _]. reflexivity.
    + split; [discriminate |].
      intros [_ H]. inversion H as [members0 Hm |]; subst.
      apply own_property_some in Hm. destruct Hm as [v Hv]. congruence.
Qed.


Lemma ToString_any_throws (v : any) (e : thrown) :
  ToString_any NumberToString v = Throw e <->
  e = TypeError /\ exists p, v = Some p /\ unprintable p.
Proof.
  destruct v as [p |]; cbn [ToString_any].
  - rewrite ToString_throws. split.
    + intros [-> H]. eauto.
    + intros (-> & q & Hq & H). injection Hq as <-. auto.
  - split; [discriminate | intros (_ & p & H & _); discriminate H].
Qed.

(** What the callback of [data.map] does with one item. *)
Lemma country_of_spec (item : parsed) :
  match country_of NumberToString item with
  | Throw e => e = TypeError /\ unloadable item
  | Normal c =>
      ~ unloadable item /\
      exists flag_text value_text,
        ToString_any NumberToString (member (Some item) (lit "flag"))
        = Normal flag_text /\
        Loaded.value c = member (member (Some item) (lit "name")) (lit "common") /\
        ToString_any NumberToString (Loaded.value c) = Normal value_text /\
        Loaded.name c = flag_text ++ lit " " ++ value_text /\
        Loaded.coordinates c = member (Some item) (lit "latlng") /\
        Loaded.openStreetMap c
        = member (member (Some item) (lit "maps")) (lit "openStreetMaps")
  end.
Proof.
  unfold unloadable.
  destruct item as [| b | n | s | items | members].
  1: { cbn. split; [reflexivity | left; reflexivity]. }
  1-4: cbn; split; [reflexivity | right; right; left; reflexivity].
  unfold country_of. cbn [read and_then member].
  destruct (ToString_any NumberToString (own_property members (lit "flag")))
    as [flag_text | e] eqn:Ef; cbn [and_then].
  2: { apply ToString_any_throws in Ef. destruct Ef as (-> & p & Hp & Hu).
       split; [reflexivity |]. right. left. eauto. }
  assert (Hflag : ~ exists f, own_property members (lit "flag") = Some f /\ unprintable f).
  { intros (f & Hf & Hu).
    assert (H : ToString_any NumberToString (own_property members (lit "flag"))
                = Throw TypeError)
      by (apply ToString_any_throws; eauto).
    congruence. }
  destruct (own_property members (lit "name")) as [nm |] eqn:En.
  2: { cbn. split; [reflexivity | right; right; left; reflexivity]. }
  destruct nm as [| b | n | s | items | names].
  1: { cbn. split; [reflexivity | right; right; right; left; reflexivity]. }
  all: cbn [read and_then member].
  all: match goal with
       | |- context [ToString_any NumberToString ?common] =>
           destruct (ToString_any NumberToString common)
             as [value_text | e] eqn:Ec; cbn [and_then]
       end.
  all: try (apply ToString_any_throws in Ec; destruct Ec as (-> & p & Hp & Hu);
            split; [reflexivity |]; right; right; right; right; eauto;
            discriminate Hp).
  all: match goal with
       | |- context [read_optional ?maps _] =>
           assert (Hm : read_optional maps (lit "openStreetMaps")
                        = Normal (member maps (lit "openStreetMaps")))
             by (destruct maps as [[| ? | ? | ? | ? | ?] |]; reflexivity);
           rewrite Hm; cbn [and_then]
       end.
  all: split;
    [ intros [H | [H | [H | [H | (c & Hc & Hu)]]]];
      [ discriminate H | exact (Hflag H) | discriminate H | discriminate H | ]
    | exists flag_text, value_text; cbn; repeat split; assumption ].
  all: try discriminate Hc.
  assert (H : ToString_any NumberToString (own_property names (lit "common"))
              = Throw TypeError)
    by (apply ToString_any_throws; eauto).
  congruence.
Qed.


Lemma loader_unfold (get : js_string -> settled CountriesResponse) :
  loader NumberToString get
  = match get restcountries_url with
    | Rejected e => Throw e
    | Fulfilled response =>
        match countries_json response with
        | Rejected e => Throw e
        | Fulfilled (PArr items) => map_throwing (country_of NumberToString) items
        | Fulfilled _ => Throw TypeError
        end
    end.
Proof.
  unfold loader, awaited, data_map.
  destruct (get restcountries_url) as [response | e]; cbn [and_then]; [| reflexivity].
  destruct (countries_json response) as [data | e]; cbn [and_then]; [| reflexivity].
  destruct data; cbn [and_then]; try reflexivity.
  destruct (map_throwing (country_of NumberToString) items); reflexivity.
Qed.

(** The loader fails in exactly three ways: the request is rejected,
    or reading the body is, each with its reason passed on; or both
    succeed and the body is not what the code takes it for, namely not an
    array, or an array with an item the callback throws on ([null], an
    item without [name], or one whose [flag] or [name.common] cannot be
    printed), which gives a [TypeError].  Nothing is caught. *)
Theorem loader_fails_on_rejection_or_misshapen_body
  (get : js_string -> settled CountriesResponse) (e : thrown) :
  loader NumberToString get = Throw e <->
  get restcountries_url = Rejected e \/
  (exists response,
      get restcountries_url = Fulfilled response /\
      countries_json response = Rejected e) \/
  (exists response data,
      get restcountries_url = Fulfilled response /\
      countries_json response = Fulfilled data /\
      e = TypeError /\
      ((forall items, data <> PArr items) \/
       exists items item,
         data = PArr items /\ In item items /\ unloadable item)).
Proof.
  rewrite loader_unfold.
  destruct (get restcountries_url) as [response | e0].
  2: { split.
       - intros H. injection H as ->. left. reflexivity.
       - intros [H | [(r & H & _) | (r & d & H & _)]];
           [congruence | discriminate H | discriminate H]. }
  destruct (countries_json response) as [data | e0] eqn:Ej.
  2: { split.
       - intros H. injection H as ->. right. left. eauto.
       - intros [H | [(r & Hr & Hj) | (r & d & Hr & Hj & _)]];
           [discriminate H | injection Hr as <-; congruence
           | injection Hr as <-; congruence]. }
  assert (Hback : forall P : Prop,
             (Fulfilled response = Rejected e \/
              (exists r, Fulfilled response = Fulfilled r /\
                         countries_json r = Rejected e) \/ P) -> P).
  { intros P [H | [(r & Hr & Hj) | HP]];
      [discriminate H | injection Hr as <-; congruence | exact HP]. }
  split.
  - intros H. right. right.
    exists response, data. split; [reflexivity |]. split; [exact Ej |].
    destruct data as [| b | n | s | items | members];
      try (injection H as <-; split; [reflexivity |]; left;
           intros items; discriminate).
    apply map_throwing_throw in H. destruct H as (item & Hin & Hitem).
    pose proof (country_of_spec item) as Hspec. rewrite Hitem in Hspec.
    destruct Hspec as [-> Hu].
    split; [reflexivity |]. right. exists items, item. auto.
  - intros H. apply Hback in H.
    destruct H as (r & d & Hr & Hj & -> & Hd).
    injection Hr as <-. rewrite Ej in Hj. injection Hj as <-.
    destruct Hd as [Hno | (items & item & -> & Hin & Hu)].
    + destruct data; try reflexivity. exfalso. exact (Hno items eq_refl).
    + pose proof (country_of_spec item) as Hspec.
      destruct (country_of NumberToString item) as [c | e'] eqn:Hitem.
      * exfalso. destruct Hspec as [Hn _]. exact (Hn Hu).
      * destruct (map_throwing_throws_on _ _ _ Hin Hitem) as [e'' Hthrow].
        rewrite Hthrow. f_equal.
        apply map_throwing_throw in Hthrow.
        destruct Hthrow as (x & _ & Hx).
        pose proof (country_of_spec x) as Hs. rewrite Hx in Hs. tauto.
Qed.


Lemma Forall2_nth_error {A B : Type} (R : A -> B -> Prop)
  (l : list A) (l' : list B) (i : nat) (x : A) :
  Forall2 R l l' -> nth_error l i = Some x ->
  exists y, nth_error l' i = Some y /\ R x y.
Proof.
  intros H. revert i. induction H as [| a b l l' Hab _ IH]; intros i Hi.
  - destruct i; discriminate Hi.
  - destruct i as [| i]; cbn [nth_error] in *.
    + injection Hi as <-. eauto.
    + apply IH. exact Hi.
Qed.

(** When the loader returns, the body was an array and the result has
    one country per item, in the array's order: its value is the
    item's [name.common] and its coordinates the item's [latlng], both
    as they came; its map link is [maps.openStreetMaps] if there is one;
    its display name is the item's [flag] as text, a space, and the
    value as text. *)
Theorem loader_maps_each_record
  (get : js_string -> settled CountriesResponse) (countries : list Loaded.t) :
  loader NumberToString get = Normal countries ->
  exists response items,
    get restcountries_url = Fulfilled response /\
    countries_json response = Fulfilled (PArr items) /\
    List.length countries = List.length items /\
    forall i item,
      nth_error items i = Some item ->
      exists c flag_text value_text,
        nth_error countries i = Some c /\
        Loaded.value c = member (member (Some item) (lit "name")) (lit "common") /\
        Loaded.coordinates c = member (Some item) (lit "latlng") /\
        Loaded.openStreetMap c
        = member (member (Some item) (lit "maps")) (lit "openStreetMaps") /\
        ToString_any NumberToString (member (Some item) (lit "flag"))
        = Normal flag_text /\
        ToString_any NumberToString (Loaded.value c) = Normal value_text /\
        Loaded.name c = flag_text ++ lit " " ++ value_text.
Proof.
  rewrite loader_unfold.
  destruct (get restcountries_url) as [response | e]; [| discriminate].
  destruct (countries_json response) as [data | e] eqn:Ej; [| discriminate].
  destruct data as [| b | n | s | items | members]; try discriminate.
  intros H. apply map_throwing_normal in H.
  exists response, items. split; [reflexivity |]. split; [exact Ej |].
  split; [symmetry; eapply Forall2_length; exact H |].
  intros i item Hi.
  destruct (@Forall2_nth_error _ _ _ _ _ _ _ H Hi) as (c & Hc & Hitem).
  pose proof (country_of_spec item) as Hspec. rewrite Hitem in Hspec.
  destruct Hspec as (_ & ft & vt & Hf & Hv & Hvt & Hn & Hco & Hl).
  exists c, ft, vt. repeat split; assumption.
Qed.



End LoaderFacts.

Section LoadedCountries.

Variable NumberToString : number -> js_string.
Variable toLowerCase : js_string -> js_string.

(** Searching a loaded country by its name finds it.  Lower-casing
    may depend on the neighbours of a letter, but not across a space;
    given that, whenever the loader's result is well typed as
    [Country[]], typing the value of one of the countries into the combo
    box keeps that country in the list, because its display name ends
    with a space and the value. *)
Theorem loaded_country_is_found_by_its_value
  (get : js_string -> settled CountriesResponse)
  (loaded : list Loaded.t) (countries : list Country.t) (c : Country.t) :
  (forall a b,
      toLowerCase (a ++ lit " " ++ b) = toLowerCase (a ++ lit " ") ++ toLowerCase b) ->
  loader NumberToString get = Normal loaded ->
  map as_Country loaded = map Some countries ->
  In c countries ->
  In (item_of c) (filtering toLowerCase countries (Some (Country.value c))).
Proof.
  intros Hsplit Hl Hty Hc.
  assert (Hname : exists prefix,
             Country.name c = prefix ++ lit " " ++ Country.value c).
  { assert (Hin : In (Some c) (map as_Country loaded))
      by (rewrite Hty; apply in_map; exact Hc).
    apply in_map_iff in Hin. destruct Hin as (lc & Hlc & Hin).
    rewrite loader_unfold in Hl.
    destruct (get restcountries_url) as [response | e]; [| discriminate].
    destruct (countries_json response) as [data | e]; [| discriminate].
    destruct data as [| b | n | s | items | members]; try discriminate.
    apply map_throwing_normal in Hl.
    assert (Hitem : exists item, country_of NumberToString item = Normal lc).
    { clear - Hl Hin. induction Hl as [| item y items ys Hy _ IH].
      - contradiction.
      - destruct Hin as [<- | Hin]; [eauto | auto]. }
    destruct Hitem as (item & Hitem).
    pose proof (country_of_spec NumberToString item) as Hspec.
    rewrite Hitem in Hspec.
    destruct Hspec as (_ & ft & vt & _ & _ & Hvt & Hn & _).
    unfold as_Country in Hlc.
    destruct (Loaded.value lc) as [[| | | v | |] |]; try discriminate Hlc.
    cbn in Hvt. injection Hvt as <-.
    exists ft.
    destruct (Loaded.coordinates lc) as [[| | | | [| [| | lat | | |] [| [| | lng | | |] [|]]] |] |];
      try discriminate Hlc.
    destruct (Loaded.openStreetMap lc) as [[| | | link | |] |];
      try discriminate Hlc; injection Hlc as <-; exact Hn. }
  destruct Hname as (prefix & Hname).
  unfold filtering. apply in_map. apply filter_In. split; [exact Hc |].
  apply includes_spec. cbn [query_of]. rewrite Hname, Hsplit.
  exists (toLowerCase (prefix ++ lit " ")), []. rewrite app_nil_r. reflexivity.
Qed.

End LoadedCountries.
(* ================================================================== *)
(** * The further statements at sample inputs *)
(* ================================================================== *)

Lemma post_only_after_validation_and_auth_witness :
  In (Fetch create_trip_url (create_trip_request (formData sample_valid) sample_user))
     (effects (snd (submit no_StringToNumber world_offline sample_valid))) /\
  passes_validation no_StringToNumber (formData sample_valid) = true /\
  fetches (effects (snd (submit no_StringToNumber world_offline sample_valid)))
  = [(create_trip_url, create_trip_request (formData sample_valid) sample_user)].
Proof.
  assert (Hin : In (Fetch create_trip_url
                      (create_trip_request (formData sample_valid) sample_user))
                   (effects (snd (submit no_StringToNumber world_offline sample_valid))))
    by (do 3 right; left; reflexivity).
  split; [exact Hin |].
  destruct (@post_only_after_validation_and_auth
              no_StringToNumber world_offline sample_valid _ _ Hin)
    as (Hv & user & rest & _ & _ & _ & _ & _ & Hf).
  split; [exact Hv | exact Hf].
Defined.

Lemma validation_of_a_typed_form_witness :
  is_double num_3 /\
  passes_validation no_StringToNumber
    (typed_form (lit "Peru") (lit "Luxury") (lit "Food") (lit "Premium")
       (lit "Solo") num_3)
  = true.
Proof.
  split; [exact num_3_is_double |].
  apply (proj2 (@validation_of_a_typed_form no_StringToNumber
                  (lit "Peru") (lit "Luxury") (lit "Food") (lit "Premium")
                  (lit "Solo") num_3 num_3_is_double)).
  split.
  - repeat split; discriminate.
  - left. exact num_3_in_range.
Defined.

Lemma filtering_a_longer_query_narrows_witness :
  substring_of (ascii_toLowerCase (query_of (Some (lit "s"))))
               (ascii_toLowerCase (query_of (Some (lit "sT")))) /\
  exists kept_earlier kept_later,
    filtering ascii_toLowerCase sample_countries (Some (lit "s"))
    = map item_of kept_earlier /\
    filtering ascii_toLowerCase sample_countries (Some (lit "sT"))
    = map item_of kept_later /\
    (forall c, In c kept_later -> In c kept_earlier).
Proof.
  assert (H : substring_of (ascii_toLowerCase (query_of (Some (lit "s"))))
                           (ascii_toLowerCase (query_of (Some (lit "sT")))))
    by (exists [], (lit "t"); reflexivity).
  split; [exact H |].
  destruct (@filtering_a_longer_query_narrows
              ascii_toLowerCase sample_countries (Some (lit "s")) (Some (lit "sT")) H)
    as (ke & kl & H1 & H2 & _ & H3).
  exists ke, kl. split; [exact H1 |]. split; [exact H2 | exact H3].
Defined.

Lemma filtering_an_empty_query_keeps_everything_witness :
  ascii_toLowerCase [] = [] /\
  filtering ascii_toLowerCase sample_countries None = countryData sample_countries.
Proof.
  split; [reflexivity |].
  exact (proj1 (@filtering_an_empty_query_keeps_everything
                  ascii_toLowerCase sample_countries eq_refl)).
Defined.

Lemma Estonia_is_first_with_its_value :
  first_with_value sample_countries (lit "Estonia") (sample_country "Estonia").
Proof.
  exists [sample_country "Peru"; sample_country "United States"], [].
  split; [reflexivity |]. split; [reflexivity |].
  intros x [<- | [<- | []]]; intros H; vm_compute in H; discriminate H.
Defined.

Lemma map_follows_the_country_choice_witness :
  lit "Estonia" <> [] /\
  first_with_value sample_countries (lit "Estonia") (sample_country "Estonia") /\
  mapData sample_countries
    (formData (after_events no_StringToNumber
                 [CountryChange (Some (lit "Estonia"))] sample_valid))
  = [ {| MapDatum.country := VString (lit "Estonia");
         MapDatum.color := lit "#EA382E";
         MapDatum.coordinates := [num_0; num_0] |} ].
Proof.
  assert (Hs : lit "Estonia" <> []) by discriminate.
  split; [exact Hs |]. split; [exact Estonia_is_first_with_its_value |].
  exact (@map_follows_the_country_choice
           no_StringToNumber sample_countries sample_valid (lit "Estonia")
           (sample_country "Estonia") Hs Estonia_is_first_with_its_value).
Defined.

Lemma loader_maps_each_record_witness :
  loader no_NumberToString sample_get = Normal sample_loaded /\
  exists items,
    countries_json {| countries_json := Fulfilled (PArr sample_items) |}
    = Fulfilled (PArr items) /\
    List.length sample_loaded = List.length items.
Proof.
  split; [reflexivity |].
  destruct (@loader_maps_each_record no_NumberToString sample_get sample_loaded eq_refl)
    as (response & items & Hg & Hj & Hlen & _).
  exists items. split; [| exact Hlen].
  injection Hg as <-. exact Hj.
Defined.



Lemma ascii_toLowerCase_splits_at_a_space (a b : js_string) :
  ascii_toLowerCase (a ++ lit " " ++ b)
  = ascii_toLowerCase (a ++ lit " ") ++ ascii_toLowerCase b.
Proof.
  unfold ascii_toLowerCase. rewrite app_assoc. apply map_app.
Defined.

Lemma loaded_country_is_found_by_its_value_witness :
  (forall a b,
      ascii_toLowerCase (a ++ lit " " ++ b)
      = ascii_toLowerCase (a ++ lit " ") ++ ascii_toLowerCase b) /\
  loader no_NumberToString sample_get = Normal sample_loaded /\
  map as_Country sample_loaded = map Some (map to_country sample_records) /\
  In (to_country (sample_raw "EE" "Estonia" 59 26)) (map to_country sample_records) /\
  In (item_of (to_country (sample_raw "EE" "Estonia" 59 26)))
     (filtering ascii_toLowerCase (map to_country sample_records)
        (Some (lit "Estonia"))).
Proof.
  assert (Hin : In (to_country (sample_raw "EE" "Estonia" 59 26))
                   (map to_country sample_records))
    by (right; left; reflexivity).
  split; [exact ascii_toLowerCase_splits_at_a_space |]. split; [reflexivity |].
  split; [reflexivity |]. split; [exact Hin |].
  exact (@loaded_country_is_found_by_its_value
           no_NumberToString ascii_toLowerCase sample_get sample_loaded
           (map to_country sample_records)
           (to_country (sample_raw "EE" "Estonia" 59 26))
           ascii_toLowerCase_splits_at_a_space eq_refl eq_refl Hin).
Defined.

(** ** Further runs on sample inputs *)

Example loader_sample : loader no_NumberToString sample_get = Normal sample_loaded.
Proof. reflexivity. Qed.

Example loader_sample_failing :
  loader no_NumberToString sample_get_failing = Throw (Thrown (lit "Failed to fetch")).
Proof. reflexivity. Qed.

Example loader_sample_error_body :
  loader no_NumberToString sample_get_error_body = Throw TypeError.
Proof. reflexivity. Qed.

Example loader_sample_nameless :
  loader no_NumberToString sample_get_nameless = Throw TypeError.
Proof. reflexivity. Qed.

Example ToString_samples :
  ToString no_NumberToString (PArr [PStr (lit "a"); PNull; PBool true]) = Normal (lit "a,,true") /\
  ToString no_NumberToString (PObj [(lit "a", PNull)]) = Normal (lit "[object Object]") /\
  ToString no_NumberToString (PArr [PObj [(lit "toString", PNull)]]) = Throw TypeError.
Proof. repeat split. Qed.

Example empty_choice_changes_nothing :
  after_events no_StringToNumber
    [CountryChange None; SelectChange k_budget (Some (lit ""))] sample_valid
  = sample_valid.
Proof. reflexivity. Qed.

Example select_filtering_sample :
  select_filtering ascii_toLowerCase [lit "Luxury"; lit "Budget"; lit "Mid-range"]
    (Some (lit "U"))
  = [ {| Item.text := lit "Luxury"; Item.value := lit "Luxury" |};
      {| Item.text := lit "Budget"; Item.value := lit "Budget" |} ].
Proof. reflexivity. Qed.

Example map_of_the_sample_form :
  mapData sample_countries (sample_form (VNumber num_3))
  = [ {| MapDatum.country := VString (lit "Peru");
         MapDatum.color := lit "#EA382E";
         MapDatum.coordinates := [num_0; num_0] |} ] /\
  mapData [] (sample_form (VNumber num_3))
  = [ {| MapDatum.country := VString (lit "Peru");
         MapDatum.color := lit "#EA382E";
         MapDatum.coordinates := [] |} ].
Proof. split; reflexivity. Qed.

(* ================================================================== *)
(** * The durations the page can hold *)
(* ================================================================== *)

Section HoldableDuration.

Variable StringToNumber : js_string -> number.

(** What is used of the built-in [Number] on strings: the empty string
    converts to [0], a valid floating-point number never converts to
    NaN, and every result is a double. *)
Hypothesis Number_of_empty : StringToNumber [] = num_0.
Hypothesis Number_of_float :
  forall s, is_valid_float_string s = true -> StringToNumber s <> js_NaN.
Hypothesis Number_is_double : forall s, is_double (StringToNumber s).

(** Text that is not a number leaves the input's value empty, so the
    duration stored for it is [0]. *)
Lemma non_numeric_text_gives_zero (typed : js_string) :
  is_valid_float_string typed = false ->
  StringToNumber (number_input_value typed) = num_0.
Proof.
  intros H. unfold number_input_value. rewrite H. exact Number_of_empty.
Qed.

Lemma holdable_duration_is_not_NaN (d : number) :
  holdable_duration StringToNumber d -> d <> js_NaN.
Proof.
  intros [-> | [typed ->]]; [discriminate |].
  unfold number_input_value.
  destruct (is_valid_float_string typed) eqn:E.
  - apply Number_of_float. exact E.
  - rewrite Number_of_empty. discriminate.
Qed.

Lemma holdable_duration_is_double (d : number) :
  holdable_duration StringToNumber d -> is_double d.
Proof.
  intros [-> | [typed ->]]; [reflexivity | apply Number_is_double].
Qed.

(** A holdable duration outside [[1, 10]] makes the second check
    fire. *)
Lemma holdable_duration_out_of_bounds (fd : TripFormData) (d : number) :
  duration fd = VNumber d ->
  holdable_duration StringToNumber d ->
  ~ in_interval 1 10 d ->
  duration_out_of_bounds StringToNumber fd = true.
Proof.
  intros Hd Hhold Hout.
  destruct (duration_out_of_bounds StringToNumber fd) eqn:E; [reflexivity |].
  apply (@duration_bounds_spec StringToNumber fd d Hd
           (holdable_duration_is_double Hhold)) in E.
  destruct E as [E | E]; [contradiction |].
  exfalso. exact (holdable_duration_is_not_NaN Hhold E).
Qed.


(** Text that is not a number is always rejected, since the duration
    stored for it is [0]. *)
Lemma non_numeric_duration_is_rejected
  (w : World) (c : Component) (typed : js_string) :
  required_fields_filled (formData c) ->
  is_valid_float_string typed = false ->
  duration (formData c) = VNumber (StringToNumber (number_input_value typed)) ->
  error (component (snd (submit StringToNumber w c))) = Some msg_duration /\
  network_calls (effects (snd (submit StringToNumber w c))) = [].
Proof.
  intros Hf Ht Hd.
  apply filled_fields_are_not_missing in Hf.
  assert (Ho : duration_out_of_bounds StringToNumber (formData c) = true).
  { apply (holdable_duration_out_of_bounds _ Hd).
    - right. exists typed. reflexivity.
    - rewrite (non_numeric_text_gives_zero _ Ht).
      intros [H _]. revert H. unfold Qle. cbn. lia. }
  by_paths; split_validation; try congruence.
  split; reflexivity.
Qed.

End HoldableDuration.

(** ** The statement at a sample input *)






Example typing_abc_is_rejected :
  error (component (snd (submit sample_Number (world_answering None) sample_typed_abc)))
  = Some msg_duration.
Proof. reflexivity. Qed.
